(** * calsi.py: the restricted arithmetic-expression evaluator

    A shallow embedding of [SafeEval] and of [ScientificCalculator.evaluate]
    (src/calsi.py), together with the fragment of the Python run time those
    forty lines lean on: the tokenizer and expression grammar behind
    [ast.parse(expr, mode='eval')], Python's numeric tower (unbounded [int],
    binary64 [float]), the [operator] functions of [allowed_ops] and the
    [math] functions of [allowed_funcs].

    Python integers are [Z]; Python floats are [spec_float] at precision 53
    and maximal exponent 1024 (IEEE-754 binary64), so that [+ - * /] and
    [sqrt] are the correctly rounded operations CPython obtains from the
    hardware.  What the C library computes ([sin], [cos], [tan], [exp],
    [log], [pow]) is not fixed by the language: it is a parameter, the
    record [Platform].

    The interpreter's resource limits are outside the model: memory, the
    recursion limit (CPython gives up on a source or a tree nested some
    hundreds of levels deep), and the limit CPython 3.11 puts on the number
    of digits of an integer literal or of the [str] of an [int] (4300 by
    default).  Every statement below is about sources and values within
    those limits. *)

From Stdlib Require Import ZArith List String Ascii Bool Lia.
From Stdlib Require Import Floats.SpecFloat DecimalString.
From Stdlib Require DecimalPos DecimalFacts.
Import ListNotations.

#[local] Set Warnings "-register-all".

Local Open Scope string_scope.
Local Open Scope list_scope.
Local Open Scope Z_scope.

(** ** Exceptions and results *)

(** The exception classes that can leave [eval_expr].  [SyntaxError] also
    stands for its subclass [IndentationError]. *)
Inductive exn : Type :=
| SyntaxError
| ValueError (msg : string)
| KeyError
| AttributeError
| TypeError
| IndexError
| ZeroDivisionError
| OverflowError.

Inductive result (A : Type) : Type :=
| OK (a : A)
| Raise (e : exn).
Arguments OK {A} a.
Arguments Raise {A} e.

Definition bind {A B : Type} (r : result A) (k : A -> result B) : result B :=
  match r with
  | OK a => k a
  | Raise e => Raise e
  end.

Notation "x <- r ;; k" := (bind r (fun x => k))
  (at level 61, r at next level, right associativity).

Definition is_ok {A : Type} (r : result A) : bool :=
  match r with OK _ => true | Raise _ => false end.

(** ** Binary64 *)

Module F64.

Definition prec : Z := 53.
Definition emax : Z := 1024.

Definition add := SFadd prec emax.
Definition sub := SFsub prec emax.
Definition mul := SFmul prec emax.
Definition div := SFdiv prec emax.
Definition sqrt := SFsqrt prec emax.
Definition neg := SFopp.
Definition eqb := SFeqb.
Definition ltb := SFltb.

Definition zero : spec_float := S754_zero false.

Definition isnan (x : spec_float) : bool :=
  match x with S754_nan => true | _ => false end.

Definition isinf (x : spec_float) : bool :=
  match x with S754_infinity _ => true | _ => false end.

Definition isfinite (x : spec_float) : bool :=
  match x with S754_zero _ | S754_finite _ _ _ => true | _ => false end.

(** The integer [m * 2^e], rounded to nearest, ties to even. *)
Definition of_Z_scaled (m e : Z) : spec_float := binary_normalize prec emax m e false.

Definition of_Z (n : Z) : spec_float := of_Z_scaled n 0.

(** [n] as an exact, not yet rounded operand of a division. *)
Definition exact (n : Z) : spec_float :=
  match n with
  | Z0 => S754_zero false
  | Zpos p => S754_finite false p 0
  | Zneg p => S754_finite true p 0
  end.

(** The quotient of two integers, rounded once. *)
Definition div_Z (a b : Z) : spec_float := div (exact a) (exact b).

(** Some doubles by mantissa and exponent, with the decimal CPython prints
    them as. *)
Definition double (m : positive) (e : Z) : spec_float := S754_finite false m e.

Definition one : spec_float := double 4503599627370496 (-52).       (* 1.0 *)
Definition two : spec_float := double 4503599627370496 (-51).       (* 2.0 *)
Definition three : spec_float := double 6755399441055744 (-51).     (* 3.0 *)
Definition eight : spec_float := double 4503599627370496 (-49).     (* 8.0 *)
Definition ninety : spec_float := double 6333186975989760 (-46).    (* 90.0 *)
Definition half_pi : spec_float := double 7074237752028440 (-52).   (* 1.5707963267948966 *)
Definition sin_ninety : spec_float := double 8052406082123878 (-53). (* 0.8939966636005579 *)
Definition log_two : spec_float := double 6243314768165359 (-53).   (* 0.6931471805599453 *)
Definition log_eight : spec_float := double 4682486076124019 (-51). (* 2.0794415416798357 *)

End F64.

(** ** Python values *)

(** The functions [from math import ...] binds and [allowed_funcs] lists. *)
Inductive mathfn : Type := math_sin | math_cos | math_tan | math_log | math_sqrt | math_exp.

(** The functions of module [operator] that [allowed_ops] lists. *)
Inductive opfn : Type :=
| operator_add | operator_sub | operator_mul | operator_truediv | operator_pow | operator_neg.

(** What [_eval] can return: an [int], a [float], a [complex] (a negative
    float raised to a fractional power) or one of the [math] functions (a
    bare name). *)
Inductive value : Type :=
| VInt (n : Z)
| VFloat (x : spec_float)
| VComplex (re im : spec_float)
| VFunc (f : mathfn).

Definition is_number (v : value) : bool :=
  match v with VFunc _ => false | _ => true end.

(** ** The platform *)

(** The C library's elementary functions on doubles, CPython's [float.__pow__]
    (a wrapper of C's [pow] that may raise or return a [complex]), the
    arithmetic of two [complex] operands and the [repr] of a float and of a
    complex.  [libm_log] is C's [log], the natural logarithm; [libm_log10] is
    C's [log10]. *)
Record Platform : Type := {
  libm_sin : spec_float -> spec_float;
  libm_cos : spec_float -> spec_float;
  libm_tan : spec_float -> spec_float;
  libm_exp : spec_float -> spec_float;
  libm_log : spec_float -> spec_float;
  libm_log10 : spec_float -> spec_float;
  float_pow : spec_float -> spec_float -> result value;
  complex_arith : opfn -> spec_float * spec_float -> spec_float * spec_float -> result value;
  float_repr : spec_float -> string;
  complex_repr : spec_float -> spec_float -> string
}.

(** ** Numbers: conversions and the [operator] functions *)

Module PyNum.
Section WithPlatform.
Context (P : Platform).

Definition domain_error : exn := ValueError "math domain error".

(** [PyLong_AsDouble]: an [int] beyond the range of a double does not become
    [inf], it raises. *)
Definition int_to_float (n : Z) : result spec_float :=
  let x := F64.of_Z n in
  if F64.isinf x then Raise OverflowError else OK x.

(** [PyFloat_AsDouble], the conversion every [math] function applies to its
    argument. *)
Definition as_double (v : value) : result spec_float :=
  match v with
  | VInt n => int_to_float n
  | VFloat x => OK x
  | VComplex _ _ => Raise TypeError
  | VFunc _ => Raise TypeError
  end.

(** The operand of a [complex] operation: a real number gets a zero imaginary
    part. *)
Definition as_complex (v : value) : result (spec_float * spec_float) :=
  match v with
  | VComplex re im => OK (re, im)
  | VFunc _ => Raise TypeError
  | _ => x <- as_double v ;; OK (x, F64.zero)
  end.

Definition complex_is_zero (c : spec_float * spec_float) : bool :=
  F64.eqb (fst c) F64.zero && F64.eqb (snd c) F64.zero.

(** Dispatch of [a op b] on the operand types: two ints stay exact, an int
    meeting a float is converted, a complex operand makes the operation
    complex, and a function object supports no arithmetic. *)
Definition arith (f : opfn)
    (on_int : Z -> Z -> result value)
    (on_float : spec_float -> spec_float -> result value)
    (a b : value) : result value :=
  match a, b with
  | VFunc _, _ | _, VFunc _ => Raise TypeError
  | VInt x, VInt y => on_int x y
  | VComplex _ _, _ | _, VComplex _ _ =>
      ca <- as_complex a ;;
      cb <- as_complex b ;;
      match f with
      | operator_truediv =>
          if complex_is_zero cb then Raise ZeroDivisionError else complex_arith P f ca cb
      | _ => complex_arith P f ca cb
      end
  | _, _ =>
      x <- as_double a ;;
      y <- as_double b ;;
      on_float x y
  end.

Definition add : value -> value -> result value :=
  arith operator_add
    (fun x y => OK (VInt (x + y)))
    (fun x y => OK (VFloat (F64.add x y))).

Definition sub : value -> value -> result value :=
  arith operator_sub
    (fun x y => OK (VInt (x - y)))
    (fun x y => OK (VFloat (F64.sub x y))).

Definition mul : value -> value -> result value :=
  arith operator_mul
    (fun x y => OK (VInt (x * y)))
    (fun x y => OK (VFloat (F64.mul x y))).

(** [float_div]: a zero divisor (of either sign) raises, nothing else does. *)
Definition float_truediv (x y : spec_float) : result value :=
  if F64.eqb y F64.zero then Raise ZeroDivisionError
  else OK (VFloat (F64.div x y)).

(** [long_true_divide]: the quotient is rounded once; it raises on a zero
    divisor and when the quotient is too large for a double. *)
Definition int_truediv (x y : Z) : result value :=
  if y =? 0 then Raise ZeroDivisionError
  else
    let q := F64.div_Z x y in
    if F64.isinf q then Raise OverflowError else OK (VFloat q).

Definition truediv : value -> value -> result value :=
  arith operator_truediv int_truediv float_truediv.

(** [long_pow]: exact for an exponent [>= 0]; a negative exponent hands both
    operands, converted, to [float.__pow__]. *)
Definition int_pow (x y : Z) : result value :=
  if y <? 0 then
    fx <- int_to_float x ;;
    fy <- int_to_float y ;;
    float_pow P fx fy
  else OK (VInt (x ^ y)).

Definition pow : value -> value -> result value :=
  arith operator_pow int_pow (float_pow P).

Definition neg (a : value) : result value :=
  match a with
  | VInt n => OK (VInt (- n))
  | VFloat x => OK (VFloat (F64.neg x))
  | VComplex re im => OK (VComplex (F64.neg re) (F64.neg im))
  | VFunc _ => Raise TypeError
  end.

(** Calling a function of module [operator] on a list of arguments. *)
Definition call_operator (f : opfn) (args : list value) : result value :=
  match f, args with
  | operator_add, [a; b] => add a b
  | operator_sub, [a; b] => sub a b
  | operator_mul, [a; b] => mul a b
  | operator_truediv, [a; b] => truediv a b
  | operator_pow, [a; b] => pow a b
  | operator_neg, [a] => neg a
  | _, _ => Raise TypeError
  end.

(** ** Module [math] *)

Definition math_pi : spec_float := S754_finite false 7074237752028440 (-51).
Definition math_e : spec_float := S754_finite false 6121026514868073 (-51).

(** [math_1]: convert the argument, call the C function, and turn a result
    that signals an error (a NaN out of a number, an infinity out of a finite
    number) into an exception. *)
Definition math_1 (func : spec_float -> spec_float) (can_overflow : bool)
    (arg : value) : result value :=
  x <- as_double arg ;;
  let r := func x in
  if F64.isnan r && negb (F64.isnan x) then Raise domain_error
  else if F64.isinf r && F64.isfinite x then
    Raise (if can_overflow then OverflowError else domain_error)
  else OK (VFloat r).

(** [m_log]: C's [log] guarded so that a zero or negative argument is an
    error whatever the C library returns for it. *)
Definition m_log (x : spec_float) : result spec_float :=
  match x with
  | S754_nan => OK x
  | S754_infinity false => OK x
  | S754_infinity true => Raise domain_error
  | S754_zero _ => Raise domain_error
  | S754_finite true _ _ => Raise domain_error
  | S754_finite false _ _ =>
      let r := libm_log P x in
      if F64.isnan r || F64.isinf r then Raise domain_error else OK r
  end.

(** [loghelper]: an [int] is tested for positivity before any conversion,
    and one too large for a double is split as [x * 2^e] with [0.5 <= x < 1],
    so that [log] is [log x + log 2 * e]. *)
Definition loghelper (arg : value) : result spec_float :=
  match arg with
  | VInt n =>
      if n <=? 0 then Raise domain_error
      else
        let x := F64.of_Z n in
        if F64.isinf x then
          let e := Z.log2 n + 1 in
          let m := F64.of_Z_scaled n (- e) in
          lx <- m_log m ;;
          l2 <- m_log (F64.of_Z 2) ;;
          OK (F64.add lx (F64.mul l2 (F64.of_Z e)))
        else m_log x
  | _ => x <- as_double arg ;; m_log x
  end.

(** [math.log(x[, base])]: the natural logarithm, or with two arguments the
    quotient of two natural logarithms. *)
Definition log (args : list value) : result value :=
  match args with
  | [x] => r <- loghelper x ;; OK (VFloat r)
  | [x; base] =>
      num <- loghelper x ;;
      den <- loghelper base ;;
      float_truediv num den
  | _ => Raise TypeError
  end.

(** [math.radians]: multiplication by the double [pi / 180]. *)
Definition degToRad : spec_float := F64.div math_pi (F64.of_Z 180).

Definition radians (arg : value) : result value :=
  x <- as_double arg ;; OK (VFloat (F64.mul x degToRad)).

(** Calling one of the [math] functions on a list of arguments: all but [log]
    take exactly one. *)
Definition call_math (f : mathfn) (args : list value) : result value :=
  match f, args with
  | math_sin, [a] => math_1 (libm_sin P) false a
  | math_cos, [a] => math_1 (libm_cos P) false a
  | math_tan, [a] => math_1 (libm_tan P) false a
  | math_sqrt, [a] => math_1 F64.sqrt false a
  | math_exp, [a] => math_1 (libm_exp P) true a
  | math_log, _ => log args
  | _, _ => Raise TypeError
  end.

(** Calling a value on unpacked arguments: only a function object is
    callable. *)
Definition call (v : value) (args : list value) : result value :=
  match v with
  | VFunc f => call_math f args
  | _ => Raise TypeError
  end.

(** [str(v)] *)
Definition str (v : value) : string :=
  match v with
  | VInt n => NilZero.string_of_int (Z.to_int n)
  | VFloat x => float_repr P x
  | VComplex re im => complex_repr P re im
  | VFunc math_sin => "<built-in function sin>"
  | VFunc math_cos => "<built-in function cos>"
  | VFunc math_tan => "<built-in function tan>"
  | VFunc math_log => "<built-in function log>"
  | VFunc math_sqrt => "<built-in function sqrt>"
  | VFunc math_exp => "<built-in function exp>"
  end.

End WithPlatform.
End PyNum.

(** ** Module [ast]: expression trees *)

(** The node classes [ast.parse] builds for the modelled fragment of the
    expression grammar (the shapes of CPython 3.9 to 3.13). *)
Module ast.

Inductive operator : Type := Add | Sub | Mult | Div | FloorDiv | Mod | Pow.
Inductive unaryop : Type := UAdd | USub | Not.
Inductive boolop : Type := And | Or.
Inductive cmpop : Type := Eq | NotEq | Lt | LtE | Gt | GtE.

(** The value a [Constant] node carries. *)
Inductive constant : Type :=
| CInt (n : Z)
| CFloat (x : spec_float)
| CStr (s : string).

Inductive expr : Type :=
| BinOp (left : expr) (op : operator) (right : expr)
| UnaryOp (op : unaryop) (operand : expr)
| Constant (value : constant)
| Call (func : expr) (args : list expr) (keywords : list (string * expr))
| Name (id : string)
| Attribute (value : expr) (attr : string)
| Subscript (value : expr) (slice : expr)
| Compare (left : expr) (ops : list cmpop) (comparators : list expr)
| BoolOp (op : boolop) (values : list expr)
| Tuple (elts : list expr)
| List (elts : list expr).

(** The class of an operator node, the key type of [allowed_ops]. *)
Inductive optype : Type :=
| binary (o : operator)
| unary (u : unaryop).

(** [isinstance(node, ast.Num)]: a [Constant] whose value is an [int], a
    [float] or a [complex]. *)
Definition Num_value (c : constant) : option value :=
  match c with
  | CInt n => Some (VInt n)
  | CFloat x => Some (VFloat x)
  | CStr _ => None
  end.

End ast.

(** Induction over expression trees: the principle Rocq derives for [ast.expr]
    says nothing about the expressions inside the lists of a node. *)

Section ExprInduction.
Variable Q : ast.expr -> Prop.
Hypothesis HBinOp : forall l op r, Q l -> Q r -> Q (ast.BinOp l op r).
Hypothesis HUnaryOp : forall op e, Q e -> Q (ast.UnaryOp op e).
Hypothesis HConstant : forall c, Q (ast.Constant c).
Hypothesis HCall : forall f args kws,
  Q f -> Forall Q args -> Forall (fun kv => Q (snd kv)) kws -> Q (ast.Call f args kws).
Hypothesis HName : forall id, Q (ast.Name id).
Hypothesis HAttribute : forall e a, Q e -> Q (ast.Attribute e a).
Hypothesis HSubscript : forall e s, Q e -> Q s -> Q (ast.Subscript e s).
Hypothesis HCompare : forall l ops cs, Q l -> Forall Q cs -> Q (ast.Compare l ops cs).
Hypothesis HBoolOp : forall op vs, Forall Q vs -> Q (ast.BoolOp op vs).
Hypothesis HTuple : forall es, Forall Q es -> Q (ast.Tuple es).
Hypothesis HList : forall es, Forall Q es -> Q (ast.List es).


End ExprInduction.

(** ** The tokenizer *)

Module tokenizer.

(** Token kinds, under CPython's names.  [ERRORTOKEN] is a lexical error (a
    decimal integer with a leading zero, an unterminated string); [INDENT] is
    what leading blanks on the only line produce.  No grammar rule accepts
    either. *)
Inductive token : Type :=
| NUMBER (c : ast.constant)
| NAME (s : string)
| STRING (s : string)
| KW_and | KW_or | KW_not
| LPAR | RPAR | LSQB | RSQB | COMMA | DOT | SEMI | EQUAL
| PLUS | MINUS | STAR | SLASH | DOUBLESTAR | DOUBLESLASH | PERCENT
| EQEQUAL | NOTEQUAL | LESS | GREATER | LESSEQUAL | GREATEREQUAL
| INDENT
| ERRORTOKEN.

Definition code (c : ascii) : N := N_of_ascii c.

Definition is_digit (c : ascii) : bool := ((48 <=? code c) && (code c <=? 57))%N.

(** A character that may continue an identifier or glue itself to a number. *)
Definition is_name_start (c : ascii) : bool :=
  (((65 <=? code c) && (code c <=? 90)) || ((97 <=? code c) && (code c <=? 122))
   || (code c =? 95))%N.

Definition is_name_char (c : ascii) : bool := is_name_start c || is_digit c.

(** A character that may stand inside a modelled string literal: printable
    ASCII but the closing quote and the backslash. *)
Definition is_string_char (c : ascii) : bool :=
  ((32 <=? code c) && (code c <=? 126) && negb (code c =? 39) && negb (code c =? 92))%N.

Definition digit_value (c : ascii) : Z := Z.of_N (code c) - 48.

(** The number a string of decimal digits denotes. *)
Definition digits_value (ds : list ascii) : Z :=
  fold_left (fun acc d => 10 * acc + digit_value d) ds 0.

Definition all_zero (ds : list ascii) : bool :=
  forallb (fun d => (code d =? 48)%N) ds.

(** A decimal integer literal: a nonzero one may not start with [0]. *)
Definition int_token (ds : list ascii) : token :=
  match ds with
  | d :: _ :: _ =>
      if (code d =? 48)%N && negb (all_zero ds) then ERRORTOKEN
      else NUMBER (ast.CInt (digits_value ds))
  | _ => NUMBER (ast.CInt (digits_value ds))
  end.

(** A literal with a decimal point: the decimal fraction, rounded once to the
    nearest double. *)
Definition float_token (int_part frac_part : list ascii) : token :=
  NUMBER (ast.CFloat
    (F64.div_Z (digits_value (int_part ++ frac_part)) (10 ^ Z.of_nat (List.length frac_part)))).

(** The reserved words.  Those the fragment has no rule for make the whole
    source fall outside the model. *)
Definition other_keywords : list string :=
  ["False"; "None"; "True"; "as"; "assert"; "async"; "await"; "break"; "class";
   "continue"; "def"; "del"; "elif"; "else"; "except"; "finally"; "for"; "from";
   "global"; "if"; "import"; "in"; "is"; "lambda"; "nonlocal"; "pass"; "raise";
   "return"; "try"; "while"; "with"; "yield"].

Definition name_token (s : string) : option token :=
  if String.eqb s "and" then Some KW_and
  else if String.eqb s "or" then Some KW_or
  else if String.eqb s "not" then Some KW_not
  else if existsb (String.eqb s) other_keywords then None
  else Some (NAME s).

(** What the scanner is in the middle of. *)
Inductive mode : Type :=
| Default
| InName (rev_chars : list ascii)
| InInt (rev_digits : list ascii)
| InFrac (int_part : list ascii) (rev_digits : list ascii)
| InString (rev_chars : list ascii).

Definition cons_token (t : token) (r : option (list token)) : option (list token) :=
  option_map (cons t) r.

Definition cons_name (rev_chars : list ascii) (r : option (list token)) : option (list token) :=
  match name_token (string_of_list_ascii (rev rev_chars)) with
  | Some t => cons_token t r
  | None => None
  end.

(** The scanner.  [None]: the source leaves the modelled fragment of Python's
    lexical grammar (a character, keyword, literal form or string prefix the
    model has no rule for).  [fresh] is what a character does when it starts
    a token; it is delayed so that it runs only where a token ends. *)
Fixpoint scan (m : mode) (cs : list ascii) {struct cs} : option (list token) :=
  match cs with
  | [] =>
      match m with
      | Default => Some []
      | InName acc => cons_name acc (Some [])
      | InInt acc => Some [int_token (rev acc)]
      | InFrac i acc => Some [float_token i (rev acc)]
      | InString _ => Some [ERRORTOKEN]
      end
  | c :: cs' =>
      let fresh (_ : unit) : option (list token) :=
        if is_digit c then scan (InInt [c]) cs'
        else if is_name_start c then scan (InName [c]) cs'
        else
          match c with
          | " " => scan Default cs'
          | "'" =>
              match cs' with
              | "'" :: "'" :: _ => None
              | _ => scan (InString []) cs'
              end
          | "." =>
              match cs' with
              | "." :: _ => None
              | d :: _ => if is_digit d then scan (InFrac [] []) cs' else cons_token DOT (scan Default cs')
              | [] => cons_token DOT (scan Default cs')
              end
          | "(" => cons_token LPAR (scan Default cs')
          | ")" => cons_token RPAR (scan Default cs')
          | "[" => cons_token LSQB (scan Default cs')
          | "]" => cons_token RSQB (scan Default cs')
          | "," => cons_token COMMA (scan Default cs')
          | ";" => cons_token SEMI (scan Default cs')
          | "+" => cons_token PLUS (scan Default cs')
          | "-" => cons_token MINUS (scan Default cs')
          | "%" => cons_token PERCENT (scan Default cs')
          | "*" =>
              match cs' with
              | "*" :: cs'' => cons_token DOUBLESTAR (scan Default cs'')
              | _ => cons_token STAR (scan Default cs')
              end
          | "/" =>
              match cs' with
              | "/" :: cs'' => cons_token DOUBLESLASH (scan Default cs'')
              | _ => cons_token SLASH (scan Default cs')
              end
          | "=" =>
              match cs' with
              | "=" :: cs'' => cons_token EQEQUAL (scan Default cs'')
              | _ => cons_token EQUAL (scan Default cs')
              end
          | "<" =>
              match cs' with
              | "=" :: cs'' => cons_token LESSEQUAL (scan Default cs'')
              | "<" :: _ => None
              | _ => cons_token LESS (scan Default cs')
              end
          | ">" =>
              match cs' with
              | "=" :: cs'' => cons_token GREATEREQUAL (scan Default cs'')
              | ">" :: _ => None
              | _ => cons_token GREATER (scan Default cs')
              end
          | "!" =>
              match cs' with
              | "=" :: cs'' => cons_token NOTEQUAL (scan Default cs'')
              | _ => None
              end
          | _ => None
          end%char in
      match m with
      | Default => fresh tt
      | InName acc =>
          if is_name_char c then scan (InName (c :: acc)) cs'
          else if (code c =? 39)%N then None
          else cons_name acc (fresh tt)
      | InInt acc =>
          if is_digit c then scan (InInt (c :: acc)) cs'
          else if is_name_start c then None
          else if (code c =? 46)%N then scan (InFrac (rev acc) []) cs'
          else cons_token (int_token (rev acc)) (fresh tt)
      | InFrac i acc =>
          if is_digit c then scan (InFrac i (c :: acc)) cs'
          else if is_name_start c then None
          else cons_token (float_token i (rev acc)) (fresh tt)
      | InString acc =>
          if (code c =? 39)%N then cons_token (STRING (string_of_list_ascii (rev acc))) (scan Default cs')
          else if is_string_char c then scan (InString (c :: acc)) cs'
          else None
      end
  end.

(** The token stream of a one-line source.  Blanks before the first token are
    indentation. *)
Definition tokenize (source : string) : option (list token) :=
  match list_ascii_of_string source with
  | " "%char :: cs => cons_token INDENT (scan Default cs)
  | cs => scan Default cs
  end.

End tokenizer.

(** ** The parser: [ast.parse(source, mode='eval')] *)

(** Recursive descent over the token list, one function per rule of CPython's
    expression grammar ([Grammar/python.gram]) as far as the modelled tokens
    reach; the left-recursive rules are loops.  The rules between
    [comparison] and [sum] (bitwise operators and shifts) have no token in
    the fragment and are passed over.  Every call spends one unit of fuel. *)
Module parser.
Import tokenizer.

Inductive pres (A : Type) : Type :=
| Done (a : A) (rest : list token)
| Fail
| OutOfFuel.
Arguments Done {A} a rest.
Arguments Fail {A}.
Arguments OutOfFuel {A}.

Definition pbind {A B : Type} (p : pres A) (k : A -> list token -> pres B) : pres B :=
  match p with
  | Done a rest => k a rest
  | Fail => Fail
  | OutOfFuel => OutOfFuel
  end.

(** [compare_op_bitwise_or_pair]: the operator that opens one more link of a
    comparison chain. *)
Definition compare_op (ts : list token) : option (ast.cmpop * list token) :=
  match ts with
  | EQEQUAL :: r => Some (ast.Eq, r)
  | NOTEQUAL :: r => Some (ast.NotEq, r)
  | LESS :: r => Some (ast.Lt, r)
  | LESSEQUAL :: r => Some (ast.LtE, r)
  | GREATER :: r => Some (ast.Gt, r)
  | GREATEREQUAL :: r => Some (ast.GtE, r)
  | _ => None
  end.

(** [strings]: adjacent string literals are one constant. *)
Fixpoint strings (acc : string) (ts : list token) : pres ast.expr :=
  match ts with
  | STRING s :: r => strings (String.append acc s) r
  | _ => Done (ast.Constant (ast.CStr acc)) ts
  end.

(** The token that closes a bracketed list: [)] or, when [square], []]. *)
Definition closes (square : bool) (t : token) : bool :=
  match square, t with
  | false, RPAR => true
  | true, RSQB => true
  | _, _ => false
  end.

Fixpoint expression (fuel : nat) (ts : list token) {struct fuel} : pres ast.expr :=
  match fuel with
  | O => OutOfFuel
  | S n => disjunction n ts
  end

with disjunction (fuel : nat) (ts : list token) {struct fuel} : pres ast.expr :=
  match fuel with
  | O => OutOfFuel
  | S n =>
      pbind (conjunction n ts) (fun e rest =>
        match rest with
        | KW_or :: _ => disjunction_loop n [e] rest
        | _ => Done e rest
        end)
  end

with disjunction_loop (fuel : nat) (acc : list ast.expr) (ts : list token) {struct fuel}
    : pres ast.expr :=
  match fuel with
  | O => OutOfFuel
  | S n =>
      match ts with
      | KW_or :: ts' =>
          pbind (conjunction n ts') (fun e rest => disjunction_loop n (acc ++ [e]) rest)
      | _ => Done (ast.BoolOp ast.Or acc) ts
      end
  end

with conjunction (fuel : nat) (ts : list token) {struct fuel} : pres ast.expr :=
  match fuel with
  | O => OutOfFuel
  | S n =>
      pbind (inversion n ts) (fun e rest =>
        match rest with
        | KW_and :: _ => conjunction_loop n [e] rest
        | _ => Done e rest
        end)
  end

with conjunction_loop (fuel : nat) (acc : list ast.expr) (ts : list token) {struct fuel}
    : pres ast.expr :=
  match fuel with
  | O => OutOfFuel
  | S n =>
      match ts with
      | KW_and :: ts' =>
          pbind (inversion n ts') (fun e rest => conjunction_loop n (acc ++ [e]) rest)
      | _ => Done (ast.BoolOp ast.And acc) ts
      end
  end

with inversion (fuel : nat) (ts : list token) {struct fuel} : pres ast.expr :=
  match fuel with
  | O => OutOfFuel
  | S n =>
      match ts with
      | KW_not :: ts' =>
          pbind (inversion n ts') (fun e rest => Done (ast.UnaryOp ast.Not e) rest)
      | _ => comparison n ts
      end
  end

with comparison (fuel : nat) (ts : list token) {struct fuel} : pres ast.expr :=
  match fuel with
  | O => OutOfFuel
  | S n =>
      pbind (sum n ts) (fun e rest =>
        match compare_op rest with
        | Some _ => comparison_loop n e [] [] rest
        | None => Done e rest
        end)
  end

with comparison_loop (fuel : nat) (left : ast.expr) (ops : list ast.cmpop)
    (comparators : list ast.expr) (ts : list token) {struct fuel} : pres ast.expr :=
  match fuel with
  | O => OutOfFuel
  | S n =>
      match compare_op ts with
      | Some (op, ts') =>
          pbind (sum n ts') (fun e rest =>
            comparison_loop n left (ops ++ [op]) (comparators ++ [e]) rest)
      | None => Done (ast.Compare left ops comparators) ts
      end
  end

with sum (fuel : nat) (ts : list token) {struct fuel} : pres ast.expr :=
  match fuel with
  | O => OutOfFuel
  | S n => pbind (term n ts) (fun e rest => sum_loop n e rest)
  end

with sum_loop (fuel : nat) (lhs : ast.expr) (ts : list token) {struct fuel} : pres ast.expr :=
  match fuel with
  | O => OutOfFuel
  | S n =>
      match ts with
      | PLUS :: ts' =>
          pbind (term n ts') (fun r rest => sum_loop n (ast.BinOp lhs ast.Add r) rest)
      | MINUS :: ts' =>
          pbind (term n ts') (fun r rest => sum_loop n (ast.BinOp lhs ast.Sub r) rest)
      | _ => Done lhs ts
      end
  end

with term (fuel : nat) (ts : list token) {struct fuel} : pres ast.expr :=
  match fuel with
  | O => OutOfFuel
  | S n => pbind (factor n ts) (fun e rest => term_loop n e rest)
  end

with term_loop (fuel : nat) (lhs : ast.expr) (ts : list token) {struct fuel} : pres ast.expr :=
  match fuel with
  | O => OutOfFuel
  | S n =>
      match ts with
      | STAR :: ts' =>
          pbind (factor n ts') (fun r rest => term_loop n (ast.BinOp lhs ast.Mult r) rest)
      | SLASH :: ts' =>
          pbind (factor n ts') (fun r rest => term_loop n (ast.BinOp lhs ast.Div r) rest)
      | DOUBLESLASH :: ts' =>
          pbind (factor n ts') (fun r rest => term_loop n (ast.BinOp lhs ast.FloorDiv r) rest)
      | PERCENT :: ts' =>
          pbind (factor n ts') (fun r rest => term_loop n (ast.BinOp lhs ast.Mod r) rest)
      | _ => Done lhs ts
      end
  end

with factor (fuel : nat) (ts : list token) {struct fuel} : pres ast.expr :=
  match fuel with
  | O => OutOfFuel
  | S n =>
      match ts with
      | PLUS :: ts' => pbind (factor n ts') (fun e rest => Done (ast.UnaryOp ast.UAdd e) rest)
      | MINUS :: ts' => pbind (factor n ts') (fun e rest => Done (ast.UnaryOp ast.USub e) rest)
      | _ => power n ts
      end
  end

with power (fuel : nat) (ts : list token) {struct fuel} : pres ast.expr :=
  match fuel with
  | O => OutOfFuel
  | S n =>
      pbind (primary n ts) (fun e rest =>
        match rest with
        | DOUBLESTAR :: ts' =>
            pbind (factor n ts') (fun f rest' => Done (ast.BinOp e ast.Pow f) rest')
        | _ => Done e rest
        end)
  end

with primary (fuel : nat) (ts : list token) {struct fuel} : pres ast.expr :=
  match fuel with
  | O => OutOfFuel
  | S n => pbind (atom n ts) (fun e rest => primary_loop n e rest)
  end

with primary_loop (fuel : nat) (e : ast.expr) (ts : list token) {struct fuel} : pres ast.expr :=
  match fuel with
  | O => OutOfFuel
  | S n =>
      match ts with
      | DOT :: NAME a :: ts' => primary_loop n (ast.Attribute e a) ts'
      | DOT :: _ => Fail
      | LPAR :: RPAR :: ts' => primary_loop n (ast.Call e [] []) ts'
      | LPAR :: ts' =>
          pbind (args n [] ts') (fun ak rest => primary_loop n (ast.Call e (fst ak) (snd ak)) rest)
      | LSQB :: ts' =>
          pbind (expression n ts') (fun s rest =>
            match rest with
            | RSQB :: rest' => primary_loop n (ast.Subscript e s) rest'
            | COMMA :: rest' =>
                pbind (elements n true [s] rest') (fun es rest'' =>
                  primary_loop n (ast.Subscript e (ast.Tuple es)) rest'')
            | _ => Fail
            end)
      | _ => Done e ts
      end
  end

(** [args]: positional arguments up to the closing parenthesis; a
    [NAME '='] switches to [kwargs]. *)
with args (fuel : nat) (acc : list ast.expr) (ts : list token) {struct fuel}
    : pres (list ast.expr * list (string * ast.expr)) :=
  match fuel with
  | O => OutOfFuel
  | S n =>
      match ts with
      | NAME _ :: EQUAL :: _ => kwargs n acc [] ts
      | _ =>
          pbind (expression n ts) (fun e rest =>
            match rest with
            | RPAR :: rest' => Done (acc ++ [e], []) rest'
            | COMMA :: RPAR :: rest' => Done (acc ++ [e], []) rest'
            | COMMA :: rest' => args n (acc ++ [e]) rest'
            | _ => Fail
            end)
      end
  end

(** [kwargs]: keyword arguments; a positional one may not follow. *)
with kwargs (fuel : nat) (pos : list ast.expr) (acc : list (string * ast.expr))
    (ts : list token) {struct fuel} : pres (list ast.expr * list (string * ast.expr)) :=
  match fuel with
  | O => OutOfFuel
  | S n =>
      match ts with
      | NAME k :: EQUAL :: ts' =>
          pbind (expression n ts') (fun e rest =>
            match rest with
            | RPAR :: rest' => Done (pos, acc ++ [(k, e)]) rest'
            | COMMA :: RPAR :: rest' => Done (pos, acc ++ [(k, e)]) rest'
            | COMMA :: rest' => kwargs n pos (acc ++ [(k, e)]) rest'
            | _ => Fail
            end)
      | _ => Fail
      end
  end

(** The elements after the first comma of a tuple, list or subscript, up to
    the closing bracket; the last may be followed by a comma. *)
with elements (fuel : nat) (square : bool) (acc : list ast.expr) (ts : list token)
    {struct fuel} : pres (list ast.expr) :=
  match fuel with
  | O => OutOfFuel
  | S n =>
      match ts with
      | [] => Fail
      | t :: ts' =>
          if closes square t then Done acc ts'
          else
            pbind (expression n ts) (fun e rest =>
              match rest with
              | COMMA :: rest' => elements n square (acc ++ [e]) rest'
              | t' :: rest' => if closes square t' then Done (acc ++ [e]) rest' else Fail
              | [] => Fail
              end)
      end
  end

with atom (fuel : nat) (ts : list token) {struct fuel} : pres ast.expr :=
  match fuel with
  | O => OutOfFuel
  | S n =>
      match ts with
      | NAME s :: r => Done (ast.Name s) r
      | NUMBER c :: r => Done (ast.Constant c) r
      | STRING s :: r => strings s r
      | LPAR :: RPAR :: r => Done (ast.Tuple []) r
      | LPAR :: r =>
          pbind (expression n r) (fun e rest =>
            match rest with
            | RPAR :: rest' => Done e rest'
            | COMMA :: rest' =>
                pbind (elements n false [e] rest') (fun es rest'' => Done (ast.Tuple es) rest'')
            | _ => Fail
            end)
      | LSQB :: RSQB :: r => Done (ast.List []) r
      | LSQB :: r =>
          pbind (expression n r) (fun e rest =>
            match rest with
            | RSQB :: rest' => Done (ast.List [e]) rest'
            | COMMA :: rest' =>
                pbind (elements n true [e] rest') (fun es rest'' => Done (ast.List es) rest'')
            | _ => Fail
            end)
      | _ => Fail
      end
  end.

(** The elements after the first comma of an unparenthesised tuple, up to
    the end of the input. *)
Fixpoint top_elements (fuel : nat) (acc : list ast.expr) (ts : list token) {struct fuel}
    : pres (list ast.expr) :=
  match fuel with
  | O => OutOfFuel
  | S n =>
      match ts with
      | [] => Done acc []
      | _ =>
          pbind (expression n ts) (fun e rest =>
            match rest with
            | COMMA :: rest' => top_elements n (acc ++ [e]) rest'
            | _ => Done (acc ++ [e]) rest
            end)
      end
  end.

(** [expressions]: one expression, or a tuple written without
    parentheses. *)
Definition expressions (fuel : nat) (ts : list token) : pres ast.expr :=
  pbind (expression fuel ts) (fun e rest =>
    match rest with
    | COMMA :: rest' => pbind (top_elements fuel [e] rest') (fun es r => Done (ast.Tuple es) r)
    | _ => Done e rest
    end).

(** Twenty units of fuel per token: every token is looked at by at most one
    call of each rule on the way down and by one loop step on the way back. *)
Definition fuel_for (ts : list token) : nat := 20 * (List.length ts + 1).

(** Whether some call in the tree repeats a keyword.  CPython versions differ
    on who rejects that (the parser or the later compiler), so such a source
    is left outside the model. *)
Fixpoint repeats_keyword (e : ast.expr) : bool :=
  let any := fix any (l : list ast.expr) : bool :=
    match l with
    | [] => false
    | x :: l' => repeats_keyword x || any l'
    end in
  let any_kw := fix any_kw (l : list (string * ast.expr)) : bool :=
    match l with
    | [] => false
    | (k, x) :: l' =>
        existsb (fun kx => String.eqb k (fst kx)) l' || repeats_keyword x || any_kw l'
    end in
  match e with
  | ast.BinOp l _ r => repeats_keyword l || repeats_keyword r
  | ast.UnaryOp _ x => repeats_keyword x
  | ast.Constant _ => false
  | ast.Call f a k => repeats_keyword f || any a || any_kw k
  | ast.Name _ => false
  | ast.Attribute x _ => repeats_keyword x
  | ast.Subscript x s => repeats_keyword x || repeats_keyword s
  | ast.Compare l _ c => repeats_keyword l || any c
  | ast.BoolOp _ v => any v
  | ast.Tuple v => any v
  | ast.List v => any v
  end.

(** Whether a [*] or [**] stands where an element begins: first, or after an
    opening bracket or a comma.  There it is not an operator but the mark of
    an unpacked element or argument, which the fragment has no rule for. *)
Fixpoint starred (at_start : bool) (ts : list token) : bool :=
  match ts with
  | [] => false
  | t :: r =>
      (at_start && match t with STAR | DOUBLESTAR => true | _ => false end)
      || starred (match t with LPAR | LSQB | COMMA | INDENT => true | _ => false end) r
  end.

(** [eval: expressions ENDMARKER].  A parse that stops before the end of the
    tokens, or not at all, is a [SyntaxError]. *)
Definition eval_input (ts : list token) : option (result ast.expr) :=
  if starred true ts then None
  else
    match expressions (fuel_for ts) ts with
    | Done e [] => if repeats_keyword e then None else Some (OK e)
    | Done _ (_ :: _) => Some (Raise SyntaxError)
    | Fail => Some (Raise SyntaxError)
    | OutOfFuel => None
    end.

End parser.

(** [ast.parse(source, mode='eval').body].  [None]: the source is outside the
    modelled fragment, and the model says nothing about it. *)
Definition ast_parse (source : string) : option (result ast.expr) :=
  match tokenizer.tokenize source with
  | Some ts => parser.eval_input ts
  | None => None
  end.

(** ** class SafeEval *)

Module SafeEval.

(** [allowed_funcs]: six functions and two constants of module [math], in the
    order of the dictionary display. *)
Definition allowed_funcs : list (string * value) :=
  [ ("sin", VFunc math_sin); ("cos", VFunc math_cos); ("tan", VFunc math_tan);
    ("log", VFunc math_log); ("sqrt", VFunc math_sqrt); ("exp", VFunc math_exp);
    ("pi", VFloat PyNum.math_pi); ("e", VFloat PyNum.math_e) ].

(** [allowed_ops]: keyed by the class of the operator node. *)
Definition allowed_ops : list (ast.optype * opfn) :=
  [ (ast.binary ast.Add, operator_add); (ast.binary ast.Sub, operator_sub);
    (ast.binary ast.Mult, operator_mul); (ast.binary ast.Div, operator_truediv);
    (ast.binary ast.Pow, operator_pow); (ast.unary ast.USub, operator_neg) ].

Definition optype_eqb (a b : ast.optype) : bool :=
  match a, b with
  | ast.binary ast.Add, ast.binary ast.Add
  | ast.binary ast.Sub, ast.binary ast.Sub
  | ast.binary ast.Mult, ast.binary ast.Mult
  | ast.binary ast.Div, ast.binary ast.Div
  | ast.binary ast.FloorDiv, ast.binary ast.FloorDiv
  | ast.binary ast.Mod, ast.binary ast.Mod
  | ast.binary ast.Pow, ast.binary ast.Pow
  | ast.unary ast.UAdd, ast.unary ast.UAdd
  | ast.unary ast.USub, ast.unary ast.USub
  | ast.unary ast.Not, ast.unary ast.Not => true
  | _, _ => false
  end.

(** Dictionary lookup, [d.get(k)]. *)
Fixpoint lookup {K V : Type} (eqb : K -> K -> bool) (k : K) (d : list (K * V)) : option V :=
  match d with
  | [] => None
  | (k', v) :: d' => if eqb k k' then Some v else lookup eqb k d'
  end.

(** [allowed_ops[k]]: a missing key raises [KeyError]. *)
Definition allowed_ops_getitem (k : ast.optype) : result opfn :=
  match lookup optype_eqb k allowed_ops with
  | Some f => OK f
  | None => Raise KeyError
  end.

(** [name in allowed_funcs] *)
Definition in_allowed_funcs (name : string) : bool :=
  match lookup String.eqb name allowed_funcs with
  | Some _ => true
  | None => false
  end.

(** [node.func.id]: only a [Name] node has the attribute [id]. *)
Definition func_id (func : ast.expr) : result string :=
  match func with
  | ast.Name id => OK id
  | _ => Raise AttributeError
  end.

Section WithPlatform.
Context (P : Platform).

(** Lines 37 to 39, once the arguments are evaluated: in degree mode the
    first argument of a trigonometric call goes through [radians], then the
    table entry is called on all of them. *)
Definition apply_func (use_degrees : bool) (func_name : string) (args : list value)
    : result value :=
  args' <-
    (if existsb (String.eqb func_name) ["sin"; "cos"; "tan"] && use_degrees then
       match args with
       | [] => Raise IndexError
       | a0 :: rest => r <- PyNum.radians a0 ;; OK (r :: rest)
       end
     else OK args) ;;
  match lookup String.eqb func_name allowed_funcs with
  | Some f => PyNum.call P f args'
  | None => Raise KeyError
  end.

(** [SafeEval._eval], with [self.use_degrees] as a parameter.  The operator
    table is consulted before the operands are evaluated, the operands and
    the arguments are evaluated left to right, and the keywords of a call
    are never looked at. *)
Fixpoint _eval (use_degrees : bool) (node : ast.expr) {struct node} : result value :=
  match node with
  | ast.BinOp lhs op rhs =>
      f <- allowed_ops_getitem (ast.binary op) ;;
      a <- _eval use_degrees lhs ;;
      b <- _eval use_degrees rhs ;;
      PyNum.call_operator P f [a; b]
  | ast.UnaryOp op operand =>
      f <- allowed_ops_getitem (ast.unary op) ;;
      a <- _eval use_degrees operand ;;
      PyNum.call_operator P f [a]
  | ast.Constant c =>
      match ast.Num_value c with
      | Some n => OK n
      | None => Raise (ValueError "Invalid expression")
      end
  | ast.Call func args _ =>
      func_name <- func_id func ;;
      if negb (in_allowed_funcs func_name) then Raise (ValueError "Invalid function")
      else
        args <- (fix eval_args (l : list ast.expr) : result (list value) :=
                   match l with
                   | [] => OK []
                   | arg :: l' =>
                       v <- _eval use_degrees arg ;;
                       vs <- eval_args l' ;;
                       OK (v :: vs)
                   end) args ;;
        apply_func use_degrees func_name args
  | ast.Name id =>
      match lookup String.eqb id allowed_funcs with
      | Some v => OK v
      | None => Raise (ValueError "Invalid variable")
      end
  | _ => Raise (ValueError "Invalid expression")
  end.

(** The list comprehension of line 36 on its own: the arguments evaluated
    left to right, the first exception ending the call. *)
Definition eval_args (use_degrees : bool) : list ast.expr -> result (list value) :=
  fix eval_args (l : list ast.expr) : result (list value) :=
    match l with
    | [] => OK []
    | arg :: l' =>
        v <- _eval use_degrees arg ;;
        vs <- eval_args l' ;;
        OK (v :: vs)
    end.

(** [SafeEval.eval_expr]: parse, then evaluate the body of the tree.  [None]
    where the model of the parser says nothing. *)
Definition eval_expr (use_degrees : bool) (expr : string) : option (result value) :=
  match ast_parse expr with
  | None => None
  | Some (Raise e) => Some (Raise e)
  | Some (OK tree) => Some (_eval use_degrees tree)
  end.

End WithPlatform.
End SafeEval.

(** ** class ScientificCalculator: the part that calls the evaluator *)

Module ScientificCalculator.

(** The attributes [evaluate] and [toggle_deg_rad] read or write: the pending
    expression, the shell's degree flag, the flag of the [SafeEval] object it
    owns and the text of the entry widget. *)
Record state : Type := {
  expression : string;
  use_degrees : bool;
  safe_eval_use_degrees : bool;
  entry : string
}.

(** [__init__]: degree mode is on, and the evaluator is built with it. *)
Definition init : state :=
  {| expression := ""; use_degrees := true; safe_eval_use_degrees := true; entry := "" |}.

(** [expr.replace('^', '**')] *)
Fixpoint replace_caret (s : string) : string :=
  match s with
  | EmptyString => EmptyString
  | String c s' =>
      if (N_of_ascii c =? 94)%N then String "*" (String "*" (replace_caret s'))
      else String c (replace_caret s')
  end.

Definition toggle_deg_rad (self : state) : state :=
  {| expression := expression self;
     use_degrees := negb (use_degrees self);
     safe_eval_use_degrees := safe_eval_use_degrees self;
     entry := entry self |}.

Definition add_to_expression (self : state) (value : string) : state :=
  let e := String.append (expression self) value in
  {| expression := e;
     use_degrees := use_degrees self;
     safe_eval_use_degrees := safe_eval_use_degrees self;
     entry := e |}.

(** The shell with [s] pending and the mode switch at [deg]; the evaluator
    still carries the flag [__init__] built it with. *)
Definition pending (deg : bool) (s : string) : state :=
  {| expression := s; use_degrees := deg; safe_eval_use_degrees := true; entry := s |}.

Section WithPlatform.
Context (P : Platform).

(** Line 93: the shell's flag is copied into the evaluator. *)
Definition copy_flag (self : state) : state :=
  {| expression := expression self;
     use_degrees := use_degrees self;
     safe_eval_use_degrees := use_degrees self;
     entry := entry self |}.

(** What line 94 hands to [str]: the pending expression with every caret
    turned into the power operator (line 92), evaluated by the evaluator
    under the flag line 93 has just given it. *)
Definition computed (self : state) : option (result value) :=
  let expr := replace_caret (expression self) in
  let self := copy_flag self in
  SafeEval.eval_expr P (safe_eval_use_degrees self) expr.

(** [evaluate]: on a value its [str] is shown and becomes the next pending
    expression; on any exception the entry shows [Error] and the pending
    expression is emptied. *)
Definition evaluate (self : state) : option state :=
  match computed self with
  | None => None
  | Some (OK v) =>
      let result := PyNum.str P v in
      Some {| expression := result; use_degrees := use_degrees self;
              safe_eval_use_degrees := use_degrees self; entry := result |}
  | Some (Raise _) =>
      Some {| expression := ""; use_degrees := use_degrees self;
              safe_eval_use_degrees := use_degrees self; entry := "Error" |}
  end.

End WithPlatform.
End ScientificCalculator.

(** ** Shapes of trees *)

Module Shape.

Definition is_trig (name : string) : bool :=
  existsb (String.eqb name) ["sin"; "cos"; "tan"].




End Shape.

(** ** The degree flag while an evaluation is in flight *)

(** The evaluator once more, now with the two attributes that hold the degree
    flag as memory cells: [ScientificCalculator.use_degrees], which the shell
    owns and [toggle_deg_rad] writes, and [SafeEval.use_degrees], which
    [evaluate] writes (line 93) and [_eval] reads (line 37).  After each of
    its accesses to either cell the evaluation may be interrupted by any
    number of presses of the DEG/RAD button. *)
Module InFlight.

Record memory : Type := {
  shell_flag : bool;
  evaluator_flag : bool;
  shell_reads : nat;
  clock : nat
}.

(** [toggle_deg_rad], on the cells. *)
Definition toggle (m : memory) : memory :=
  {| shell_flag := negb (shell_flag m); evaluator_flag := evaluator_flag m;
     shell_reads := shell_reads m; clock := clock m |}.

(** The interruption after an access: [schedule k] presses after the [k]-th
    access. *)
Definition interrupt (schedule : nat -> nat) (m : memory) : memory :=
  let m' := Nat.iter (schedule (clock m)) toggle m in
  {| shell_flag := shell_flag m'; evaluator_flag := evaluator_flag m';
     shell_reads := shell_reads m'; clock := S (clock m') |}.

Definition action (A : Type) : Type := memory -> result A * memory.

Definition ret {A : Type} (r : result A) : action A := fun m => (r, m).

Definition then_ {A B : Type} (a : action A) (k : A -> action B) : action B :=
  fun m =>
    match a m with
    | (OK x, m') => k x m'
    | (Raise e, m') => (Raise e, m')
    end.

(** [self.use_degrees] in [ScientificCalculator.evaluate]; reads are
    counted. *)
Definition read_shell_flag (schedule : nat -> nat) : action bool :=
  fun m =>
    (OK (shell_flag m),
     interrupt schedule
       {| shell_flag := shell_flag m; evaluator_flag := evaluator_flag m;
          shell_reads := S (shell_reads m); clock := clock m |}).

(** [self.safe_eval.use_degrees = b] *)
Definition write_evaluator_flag (schedule : nat -> nat) (b : bool) : action unit :=
  fun m =>
    (OK tt,
     interrupt schedule
       {| shell_flag := shell_flag m; evaluator_flag := b;
          shell_reads := shell_reads m; clock := clock m |}).

(** [self.use_degrees] in [SafeEval._eval] *)
Definition read_evaluator_flag (schedule : nat -> nat) : action bool :=
  fun m => (OK (evaluator_flag m), interrupt schedule m).

Section WithPlatform.
Context (P : Platform) (schedule : nat -> nat).

(** [SafeEval._eval] on the cells.  The flag is read at a call, after the
    arguments, and only when the name is trigonometric: the [and] of line 37
    does not evaluate its right operand otherwise. *)
Fixpoint _eval (node : ast.expr) {struct node} : action value :=
  match node with
  | ast.BinOp lhs op rhs =>
      then_ (ret (SafeEval.allowed_ops_getitem (ast.binary op))) (fun f =>
      then_ (_eval lhs) (fun a =>
      then_ (_eval rhs) (fun b =>
      ret (PyNum.call_operator P f [a; b]))))
  | ast.UnaryOp op operand =>
      then_ (ret (SafeEval.allowed_ops_getitem (ast.unary op))) (fun f =>
      then_ (_eval operand) (fun a =>
      ret (PyNum.call_operator P f [a])))
  | ast.Constant c =>
      match ast.Num_value c with
      | Some n => ret (OK n)
      | None => ret (Raise (ValueError "Invalid expression"))
      end
  | ast.Call func args _ =>
      then_ (ret (SafeEval.func_id func)) (fun func_name =>
      if negb (SafeEval.in_allowed_funcs func_name) then ret (Raise (ValueError "Invalid function"))
      else
        then_ ((fix eval_args (l : list ast.expr) : action (list value) :=
                  match l with
                  | [] => ret (OK [])
                  | arg :: l' =>
                      then_ (_eval arg) (fun v =>
                      then_ (eval_args l') (fun vs => ret (OK (v :: vs))))
                  end) args) (fun args =>
        then_ (if Shape.is_trig func_name then read_evaluator_flag schedule else ret (OK false))
          (fun use_degrees =>
        ret (SafeEval.apply_func P use_degrees func_name args))))
  | ast.Name id =>
      match SafeEval.lookup String.eqb id SafeEval.allowed_funcs with
      | Some v => ret (OK v)
      | None => ret (Raise (ValueError "Invalid variable"))
      end
  | _ => ret (Raise (ValueError "Invalid expression"))
  end.

Definition eval_args : list ast.expr -> action (list value) :=
  fix eval_args (l : list ast.expr) : action (list value) :=
    match l with
    | [] => ret (OK [])
    | arg :: l' =>
        then_ (_eval arg) (fun v =>
        then_ (eval_args l') (fun vs => ret (OK (v :: vs))))
    end.

(** Lines 92 to 94 of [ScientificCalculator.evaluate], up to the call of
    [str]: the shell's flag is read and copied, then the expression is
    parsed and evaluated. *)
Definition evaluate (expression : string) (m : memory) : option (result value * memory) :=
  let expr := ScientificCalculator.replace_caret expression in
  match then_ (read_shell_flag schedule) (write_evaluator_flag schedule) m with
  | (Raise e, m') => Some (Raise e, m')
  | (OK _, m') =>
      match ast_parse expr with
      | None => None
      | Some (Raise e) => Some (Raise e, m')
      | Some (OK tree) => Some (_eval tree m')
      end
  end.

End WithPlatform.


End InFlight.

(** ** Arithmetic as the user writes it *)

(** The expressions of the calculator's keypad: numeric literals, the five
    operators with [^] for power, unary minus and parentheses; and how such
    an expression is written down, with the parentheses Python's precedence
    and associativity make necessary and no others (besides those of
    [Paren], which the user chose to write). *)
Module Formula.

Inductive literal : Type :=
| Integer (digits : list ascii)
| Decimal (int_part frac_part : list ascii).

Inductive binop : Type := Plus | Minus | Times | Divide | Power.

Inductive formula : Type :=
| Lit (l : literal)
| Neg (f : formula)
| Paren (f : formula)
| Bin (op : binop) (l r : formula).

Definition is_zero_digit (c : ascii) : bool := (tokenizer.code c =? 48)%N.

(** A literal Python reads as a number: digits only, at least one, and an
    integer other than zero does not start with [0]. *)
Definition wf_literal (l : literal) : bool :=
  match l with
  | Integer ds =>
      forallb tokenizer.is_digit ds
      && match ds with
         | [] => false
         | [_] => true
         | d :: _ => negb (is_zero_digit d) || tokenizer.all_zero ds
         end
  | Decimal i f =>
      forallb tokenizer.is_digit i && forallb tokenizer.is_digit f
      && match i, f with [], [] => false | _, _ => true end
  end.

Fixpoint wf (f : formula) : bool :=
  match f with
  | Lit l => wf_literal l
  | Neg f => wf f
  | Paren f => wf f
  | Bin _ l r => wf l && wf r
  end.

(** Binding strength, by the rule of Python's grammar that produces the
    form: [sum], [term], [factor], [power], [atom]. *)
Definition level (f : formula) : nat :=
  match f with
  | Bin Plus _ _ | Bin Minus _ _ => 1
  | Bin Times _ _ | Bin Divide _ _ => 2
  | Neg _ => 3
  | Bin Power _ _ => 4
  | Lit _ | Paren _ => 5
  end.

Definition literal_string (l : literal) : string :=
  match l with
  | Integer ds => string_of_list_ascii ds
  | Decimal i f => String.append (string_of_list_ascii i) (String "." (string_of_list_ascii f))
  end.

Definition operator_string (op : binop) : string :=
  match op with
  | Plus => "+" | Minus => "-" | Times => "*" | Divide => "/" | Power => "^"
  end.

(** The levels at which the operands of a binary operator stand: both sums
    and products group to the left, a power has an atom for base and a
    factor (so possibly a minus sign, or another power) for exponent. *)
Definition operand_levels (op : binop) : nat * nat :=
  match op with
  | Plus | Minus => (1, 2)
  | Times | Divide => (2, 3)
  | Power => (5, 3)
  end%nat.

(** The formula written where a form of level [p] or more is expected. *)
Fixpoint render (p : nat) (f : formula) : string :=
  let body :=
    match f with
    | Lit l => literal_string l
    | Neg g => String.append "-" (render 3 g)
    | Paren g => String.append "(" (String.append (render 0 g) ")")
    | Bin op l r =>
        String.append (render (fst (operand_levels op)) l)
          (String.append (operator_string op) (render (snd (operand_levels op)) r))
    end in
  if (level f <? p)%nat then String.append "(" (String.append body ")") else body.

Definition write (f : formula) : string := render 0 f.

Definition literal_constant (l : literal) : ast.constant :=
  match l with
  | Integer ds => ast.CInt (tokenizer.digits_value ds)
  | Decimal i f =>
      ast.CFloat (F64.div_Z (tokenizer.digits_value (i ++ f)) (10 ^ Z.of_nat (List.length f)))
  end.

Definition operator_node (op : binop) : ast.operator :=
  match op with
  | Plus => ast.Add | Minus => ast.Sub | Times => ast.Mult | Divide => ast.Div
  | Power => ast.Pow
  end.

(** The tree the formula stands for. *)
Fixpoint tree (f : formula) : ast.expr :=
  match f with
  | Lit l => ast.Constant (literal_constant l)
  | Neg g => ast.UnaryOp ast.USub (tree g)
  | Paren g => tree g
  | Bin op l r => ast.BinOp (tree l) (operator_node op) (tree r)
  end.

(** The integer the formula denotes, when it is built from integer literals
    with [+], [-], [*] and powers with an exponent that is not negative. *)
Fixpoint integer_value (f : formula) : option Z :=
  match f with
  | Lit (Integer ds) => Some (tokenizer.digits_value ds)
  | Lit (Decimal _ _) => None
  | Neg g => option_map Z.opp (integer_value g)
  | Paren g => integer_value g
  | Bin op l r =>
      match integer_value l, integer_value r with
      | Some a, Some b =>
          match op with
          | Plus => Some (a + b)
          | Minus => Some (a - b)
          | Times => Some (a * b)
          | Divide => None
          | Power => if b <? 0 then None else Some (a ^ b)
          end
      | _, _ => None
      end
  end.

End Formula.

(** ** The tokens of a formula and bounds for the parser, for the proofs *)

Module Written.
Import tokenizer.

Definition operator_token (op : Formula.binop) : token :=
  match op with
  | Formula.Plus => PLUS | Formula.Minus => MINUS | Formula.Times => STAR
  | Formula.Divide => SLASH | Formula.Power => DOUBLESTAR
  end.

(** The token stream of [Formula.render p f], carets already translated. *)
Fixpoint tokens (p : nat) (f : Formula.formula) : list token :=
  let body :=
    match f with
    | Formula.Lit l => [NUMBER (Formula.literal_constant l)]
    | Formula.Neg g => MINUS :: tokens 3 g
    | Formula.Paren g => LPAR :: tokens 0 g ++ [RPAR]
    | Formula.Bin op l r =>
        tokens (fst (Formula.operand_levels op)) l
        ++ operator_token op :: tokens (snd (Formula.operand_levels op)) r
    end in
  if (Formula.level f <? p)%nat then LPAR :: body ++ [RPAR] else body.

(** Fuel that suffices to parse [tokens p f] with the rule of level [p]. *)
Fixpoint cost (p : nat) (f : Formula.formula) : nat :=
  let natural :=
    match f with
    | Formula.Lit _ => 2
    | Formula.Neg g => 1 + cost 3 g
    | Formula.Paren g => 2 + cost 0 g
    | Formula.Bin op l r =>
        cost (fst (Formula.operand_levels op)) l + 2 + cost (snd (Formula.operand_levels op)) r
    end%nat in
  (natural + if (Formula.level f <? p)%nat then 24 else 11)%nat.

(** The part of [cost] that does not depend on the level asked for. *)
Definition natural (f : Formula.formula) : nat :=
  match f with
  | Formula.Lit _ => 2
  | Formula.Neg g => 1 + cost 3 g
  | Formula.Paren g => 2 + cost 0 g
  | Formula.Bin op l r =>
      cost (fst (Formula.operand_levels op)) l + 2 + cost (snd (Formula.operand_levels op)) r
  end%nat.

(** The rule of the grammar for forms of level [q]. *)
Definition parse_at (q : nat) : nat -> list token -> parser.pres ast.expr :=
  match q with
  | 0 => parser.expression
  | 1 => parser.sum
  | 2 => parser.term
  | 3 => parser.factor
  | 4 => parser.power
  | _ => parser.primary
  end%nat.

(** Where that rule stands once it has read a form: [sum] and [term] are in
    their loops, the others are done. *)
Definition result_at (q : nat) (fuel : nat) (e : ast.expr) (rest : list token)
    : parser.pres ast.expr :=
  match q with
  | 1 => parser.sum_loop fuel e rest
  | 2 => parser.term_loop fuel e rest
  | _ => parser.Done e rest
  end%nat.

(** What may follow a form of level [q] in a written formula: nothing, a
    closing parenthesis, or an operator that binds no tighter. *)
Definition ends (q : nat) (rest : list token) : bool :=
  match rest with
  | [] => true
  | RPAR :: _ => true
  | PLUS :: _ | MINUS :: _ => (1 <=? q)%nat
  | STAR :: _ | SLASH :: _ => (2 <=? q)%nat
  | DOUBLESTAR :: _ => (5 <=? q)%nat
  | _ => false
  end.

(** The first token of a form: a number, a minus sign or an opening
    parenthesis; of an atom: a number or an opening parenthesis. *)
Definition starts (ts : list token) : bool :=
  match ts with
  | NUMBER _ :: _ | MINUS :: _ | LPAR :: _ => true
  | _ => false
  end.

Definition starts_atom (ts : list token) : bool :=
  match ts with
  | NUMBER _ :: _ | LPAR :: _ => true
  | _ => false
  end.

(** [ts] is read by the rule of level [q] as the tree [e], with [c] units of
    fuel beyond what the continuation asks for. *)
Definition reads (q : nat) (ts : list token) (e : ast.expr) (c : nat) : Prop :=
  forall rest n m, ends q rest = true -> (m + c <= n)%nat ->
  exists n', (m <= n')%nat /\ parse_at q n (ts ++ rest) = result_at q n' e rest.

(** What may follow a literal in a written formula. *)
Definition boundary (rest : list ascii) : bool :=
  match rest with
  | [] => true
  | c :: _ => existsb (Ascii.eqb c) ["+"; "-"; "*"; "/"; ")"]%char
  end.

(** The first character of an operand. *)
Definition operand_start (cs : list ascii) : bool :=
  match cs with
  | [] => false
  | c :: _ => is_digit c || existsb (Ascii.eqb c) ["."; "-"; "("]%char
  end.

(** The characters the tokenizer gets: the source after line 92. *)
Definition chars (s : string) : list ascii :=
  list_ascii_of_string (ScientificCalculator.replace_caret s).

(** What the tokenizer does with a piece of source followed by [rest]: it
    emits [ts] and goes on with [rest]; and the piece begins like an
    operand. *)
Definition scans (cs : list ascii) (ts : list token) : Prop :=
  (forall rest, boundary rest = true ->
     scan Default (cs ++ rest) = option_map (app ts) (scan Default rest))
  /\ operand_start cs = true.

End Written.

(** ** A platform to run the model on *)

(** The C library at the handful of arguments the concrete runs below use,
    with the doubles glibc returns there (CPython prints them as
    [math.sin(1.5707963267948966) = 1.0], [math.sin(90.0) = 0.8939966636005579],
    [math.log(8.0) = 2.0794415416798357], [math.log(2.0) = 0.6931471805599453],
    [math.log(math.e) = 1.0], [math.exp(1.0) = 2.718281828459045]), and NaN
    everywhere else.  It only instantiates theorems that hold for every
    platform. *)
Module Sample.

Definition table (entries : list (spec_float * spec_float)) (x : spec_float) : spec_float :=
  match find (fun kv => F64.eqb x (fst kv)) entries with
  | Some kv => snd kv
  | None => S754_nan
  end.

Definition platform : Platform :=
  {| libm_sin := table [(F64.half_pi, F64.one); (F64.ninety, F64.sin_ninety); (F64.zero, F64.zero)];
     libm_cos := table [(F64.zero, F64.one)];
     libm_tan := table [(F64.zero, F64.zero)];
     libm_exp := table [(F64.one, PyNum.math_e); (F64.zero, F64.one)];
     libm_log := table [(PyNum.math_e, F64.one); (F64.two, F64.log_two); (F64.eight, F64.log_eight); (F64.one, F64.zero)];
     libm_log10 := table [(F64.one, F64.zero)];
     float_pow := fun _ _ => OK (VFloat S754_nan);
     complex_arith := fun _ _ _ => OK (VComplex S754_nan S754_nan);
     float_repr := fun x => if F64.eqb x F64.one then "1.0" else if F64.eqb x F64.three then "3.0" else "nan";
     complex_repr := fun _ _ => "(nan+nanj)" |}.

End Sample.

(** ** The operands the error claims speak of *)

Module Operand.

(** A zero of any numeric type: [0], [0.0], [-0.0], [0j]. *)
Definition is_zero (v : value) : bool :=
  match v with
  | VInt n => n =? 0
  | VFloat x => F64.eqb x F64.zero
  | VComplex re im => F64.eqb re F64.zero && F64.eqb im F64.zero
  | VFunc _ => false
  end.

(** A real number below zero. *)
Definition is_negative (v : value) : bool :=
  match v with
  | VInt n => n <? 0
  | VFloat x => F64.ltb x F64.zero
  | _ => false
  end.

(** A real number that is zero or below. *)
Definition is_nonpositive (v : value) : bool :=
  match v with
  | VInt n => n <=? 0
  | VFloat x => SFleb x F64.zero
  | _ => false
  end.

(** A real number above zero. *)
Definition is_positive (v : value) : bool :=
  match v with
  | VInt n => 0 <? n
  | VFloat x => F64.ltb F64.zero x
  | _ => false
  end.

(** An [int] whose conversion to a double overflows. *)
Definition too_large (v : value) : bool :=
  match v with
  | VInt n => F64.isinf (F64.of_Z n)
  | _ => false
  end.

End Operand.


(** ** Strings as the shell handles them *)

Module PyStr.

(** [sub in s]: whether [sub] occurs in [s] as a substring. *)
Fixpoint contains (sub s : string) : bool :=
  String.prefix sub s
  || match s with
     | EmptyString => false
     | String _ s' => contains sub s'
     end.

(** [s[:-1]]: all but the last character; the empty string stays empty. *)
Fixpoint drop_last (s : string) : string :=
  match s with
  | EmptyString => EmptyString
  | String c EmptyString => EmptyString
  | String c s' => String c (drop_last s')
  end.

Definition is_ascii (s : string) : bool :=
  forallb (fun c => (N_of_ascii c <? 128)%N) (list_ascii_of_string s).

Definition hex_digit (n : N) : ascii :=
  nth (N.to_nat n) (list_ascii_of_string "0123456789abcdef") "0"%char.

(** One character inside [repr(s)], [s] an ASCII string quoted with
    [quote]. *)
Definition escaped (quote c : ascii) : string :=
  let n := N_of_ascii c in
  if (n =? N_of_ascii quote)%N || (n =? 92)%N then String "\" (String c "")
  else if (n =? 9)%N then "\t"
  else if (n =? 10)%N then "\n"
  else if (n =? 13)%N then "\r"
  else if (n <? 32)%N || (n =? 127)%N then
    String "\" (String "x" (String (hex_digit (n / 16)) (String (hex_digit (n mod 16)) "")))
  else String c "".

(** [repr(s)] of an ASCII string: double quotes only where they save a
    backslash. *)
Definition repr (s : string) : string :=
  let cs := list_ascii_of_string s in
  let has q := existsb (fun c => (N_of_ascii c =? q)%N) cs in
  let quote := if has 39%N && negb (has 34%N) then ascii_of_N 34 else ascii_of_N 39 in
  String quote
    (String.append (String.concat "" (map (escaped quote) cs)) (String quote "")).

End PyStr.

(** ** Decimal numerals *)

Module Numeral.

(** The characters of a decimal numeral, as [str] writes an [int]. *)
Definition chars (u : Decimal.uint) : list ascii :=
  list_ascii_of_string (NilEmpty.string_of_uint u).

(** One more digit read, as in [tokenizer.digits_value]. *)
Definition step (acc : Z) (d : ascii) : Z := 10 * acc + tokenizer.digit_value d.

End Numeral.

(** ** [float(s)] on a string *)

Module PyFloat.

(** [Py_ISSPACE]: blank, tab, line feed, vertical tab, form feed, carriage
    return. *)
Definition is_space (c : ascii) : bool :=
  let n := N_of_ascii c in (((9 <=? n) && (n <=? 13)) || (n =? 32))%N.

Definition is_underscore (c : ascii) : bool := (N_of_ascii c =? 95)%N.

(** [_Py_string_to_number_with_underscores]: an underscore stands between
    two digits or the string is refused; [prev] is the character before. *)
Fixpoint without_underscores (prev : ascii) (cs : list ascii) : option (list ascii) :=
  match cs with
  | [] => if is_underscore prev then None else Some []
  | c :: cs' =>
      if is_underscore c then
        if tokenizer.is_digit prev then without_underscores c cs' else None
      else if is_underscore prev && negb (tokenizer.is_digit c) then None
      else option_map (cons c) (without_underscores c cs')
  end.

Fixpoint skip_spaces (cs : list ascii) : list ascii :=
  match cs with
  | c :: cs' => if is_space c then skip_spaces cs' else cs
  | [] => []
  end.

(** The blanks at both ends removed. *)
Definition strip (cs : list ascii) : list ascii :=
  rev (skip_spaces (rev (skip_spaces cs))).

(** The digits [cs] starts with, and what follows them. *)
Fixpoint digits (cs : list ascii) : list ascii * list ascii :=
  match cs with
  | c :: cs' =>
      if tokenizer.is_digit c then let (ds, rest) := digits cs' in (c :: ds, rest)
      else ([], cs)
  | [] => ([], [])
  end.

Definition sign (cs : list ascii) : bool * list ascii :=
  match cs with
  | "-"%char :: cs' => (true, cs')
  | "+"%char :: cs' => (false, cs')
  | _ => (false, cs)
  end.

Fixpoint skip_zeros (ds : list ascii) : list ascii :=
  match ds with
  | d :: ds' => if (tokenizer.code d =? 48)%N then skip_zeros ds' else ds
  | [] => []
  end.

Definition MAX_ABS_EXP : Z := 1100000000.

(** The exponent part of [_Py_dg_strtod]: [e] or [E], a sign, digits.
    Without a digit the [e] is not part of the number.  Beyond nine
    significant digits the exponent is taken as [MAX_ABS_EXP]. *)
Definition exponent (cs : list ascii) : Z * list ascii :=
  match cs with
  | c :: cs' =>
      if (tokenizer.code c =? 101)%N || (tokenizer.code c =? 69)%N then
        let (esign, after_sign) := sign cs' in
        let (ds, rest) := digits after_sign in
        match ds with
        | [] => (0, cs)
        | _ =>
            let significant := skip_zeros ds in
            let abs_exp := tokenizer.digits_value significant in
            let e :=
              if (9 <? List.length significant)%nat || (MAX_ABS_EXP <? abs_exp)
              then MAX_ABS_EXP else abs_exp in
            (if esign then - e else e, rest)
        end
      else (0, cs)
  | [] => (0, [])
  end.

(** The double nearest to [d * 10^e], [d] being the number the digits [ds]
    denote, with the sign given.  From [10^309] on that is infinity and
    below [10^-324] it is zero; there the power is not computed. *)
Definition decimal (negative : bool) (ds : list ascii) (e : Z) : spec_float :=
  let d := tokenizer.digits_value ds in
  let x :=
    if d =? 0 then F64.zero
    else if 309 <=? e then S754_infinity false
    else if Z.of_nat (List.length ds) + e <=? -324 then F64.zero
    else if 0 <=? e then F64.of_Z (d * 10 ^ e)
    else F64.div_Z d (10 ^ (- e)) in
  if negative then F64.neg x else x.

(** [_Py_dg_strtod]: a sign, digits, a point and digits, an exponent; at
    least one digit.  The number read and what follows it; [None] when no
    number starts the string. *)
Definition strtod (cs : list ascii) : option (spec_float * list ascii) :=
  let (negative, after_sign) := sign cs in
  let (int_part, after_int) := digits after_sign in
  let (frac_part, after_frac) :=
    match after_int with
    | "."%char :: cs' => digits cs'
    | _ => ([], after_int)
    end in
  let after_point :=
    match after_int with
    | "."%char :: _ => after_frac
    | _ => after_int
    end in
  match int_part ++ frac_part with
  | [] => None
  | ds =>
      let (e, rest) := exponent after_point in
      Some (decimal negative ds (e - Z.of_nat (List.length frac_part)),
            rest)
  end.

(** [Py_TOLOWER] *)
Definition lower (c : ascii) : ascii :=
  let n := N_of_ascii c in
  if ((65 <=? n) && (n <=? 90))%N then ascii_of_N (n + 32) else c.

(** [case_insensitive_match]: what follows [word] when [cs] starts with it
    in any case. *)
Fixpoint after_word (word cs : list ascii) : option (list ascii) :=
  match word, cs with
  | [], _ => Some cs
  | w :: word', c :: cs' =>
      if (N_of_ascii (lower c) =? N_of_ascii w)%N then after_word word' cs' else None
  | _ :: _, [] => None
  end.

(** [_Py_parse_inf_or_nan] *)
Definition inf_or_nan (cs : list ascii) : option (spec_float * list ascii) :=
  let (negative, s) := sign cs in
  match after_word (list_ascii_of_string "inf") s with
  | Some s' =>
      match after_word (list_ascii_of_string "inity") s' with
      | Some s'' => Some (S754_infinity negative, s'')
      | None => Some (S754_infinity negative, s')
      end
  | None =>
      match after_word (list_ascii_of_string "nan") s with
      | Some s' => Some (S754_nan, s')
      | None => None
      end
  end.

(** [float_from_string_inner]: the blanks stripped, the whole of what is
    left has to be one number. *)
Definition inner (cs : list ascii) : option spec_float :=
  let s := strip cs in
  match (match strtod s with Some r => Some r | None => inf_or_nan s end) with
  | Some (x, []) => Some x
  | _ => None
  end.

(** [float(s)] for a string [s].  [None] where [s] has a character outside
    ASCII, which the model has no rule for. *)
Definition from_string (s : string) : option (result spec_float) :=
  if negb (PyStr.is_ascii s) then None
  else
    let cs := list_ascii_of_string s in
    let converted :=
      if existsb is_underscore cs then
        match without_underscores Ascii.zero cs with
        | Some cs' => inner cs'
        | None => None
        end
      else inner cs in
    match converted with
    | Some x => Some (OK x)
    | None =>
        Some (Raise (ValueError
          (String.append "could not convert string to float: " (PyStr.repr s))))
    end.

End PyFloat.

(** ** The window: [ScientificCalculator] with its memory and its buttons *)

Module App.

(** The attributes the handlers read or write: those of
    [ScientificCalculator.state], the memory register and the text of the
    DEG/RAD button. *)
Record state : Type := {
  shell : ScientificCalculator.state;
  memory : value;
  toggle_btn : string
}.

Definition expression (self : state) : string := ScientificCalculator.expression (shell self).
Definition entry (self : state) : string := ScientificCalculator.entry (shell self).
Definition use_degrees (self : state) : bool := ScientificCalculator.use_degrees (shell self).

Definition with_shell (self : state) (s : ScientificCalculator.state) : state :=
  {| shell := s; memory := memory self; toggle_btn := toggle_btn self |}.

(** [__init__] and [create_buttons]: nothing pending, memory [0], degree
    mode, the button reading [DEG]. *)
Definition init : state :=
  {| shell := ScientificCalculator.init; memory := VInt 0; toggle_btn := "DEG" |}.

Definition add_to_expression (self : state) (value : string) : state :=
  with_shell self (ScientificCalculator.add_to_expression (shell self) value).

Definition key_input (self : state) (char : string) : state :=
  if PyStr.contains char "0123456789+-*/().^" then add_to_expression self char else self.

Definition clear (self : state) : state :=
  with_shell self
    {| ScientificCalculator.expression := "";
       ScientificCalculator.use_degrees := use_degrees self;
       ScientificCalculator.safe_eval_use_degrees :=
         ScientificCalculator.safe_eval_use_degrees (shell self);
       ScientificCalculator.entry := "" |}.

Definition delete_last (self : state) : state :=
  let e := PyStr.drop_last (expression self) in
  with_shell self
    {| ScientificCalculator.expression := e;
       ScientificCalculator.use_degrees := use_degrees self;
       ScientificCalculator.safe_eval_use_degrees :=
         ScientificCalculator.safe_eval_use_degrees (shell self);
       ScientificCalculator.entry := e |}.

Definition toggle_deg_rad (self : state) : state :=
  let s := ScientificCalculator.toggle_deg_rad (shell self) in
  let mode := if ScientificCalculator.use_degrees s then "DEG" else "RAD" in
  {| shell := s; memory := memory self; toggle_btn := mode |}.

(** [memory_store]: [float] of what the entry shows; whatever it raises is
    swallowed and the memory kept. *)
Definition memory_store (self : state) : option state :=
  match PyFloat.from_string (entry self) with
  | None => None
  | Some (OK x) =>
      Some {| shell := shell self; memory := VFloat x; toggle_btn := toggle_btn self |}
  | Some (Raise _) => Some self
  end.

Definition memory_clear (self : state) : state :=
  {| shell := shell self; memory := VInt 0; toggle_btn := toggle_btn self |}.

(** The grid of [create_buttons], row by row. *)
Definition buttons : list (list string) :=
  [ ["7"; "8"; "9"; "/"; "sqrt"];
    ["4"; "5"; "6"; "*"; "^"];
    ["1"; "2"; "3"; "-"; "log"];
    ["0"; "."; "("; ")"; "+"];
    ["sin"; "cos"; "tan"; "exp"; "pi"];
    ["e"; "M+"; "MR"; "MC"; "="] ].

(** The keys and buttons a user can press. *)
Inductive event : Type :=
| Key (char : string)
| Return
| BackSpace
| Escape
| Button (text : string)
| Toggle.

Section WithPlatform.
Context (P : Platform).

Definition evaluate (self : state) : option state :=
  option_map (with_shell self) (ScientificCalculator.evaluate P (shell self)).

Definition memory_recall (self : state) : state :=
  add_to_expression self (PyNum.str P (memory self)).

Definition on_button_click (self : state) (char : string) : option state :=
  if (char =? "C")%string then Some (clear self)
  else if (char =? "DEL")%string then Some (delete_last self)
  else if (char =? "=")%string then evaluate self
  else if (char =? "pi")%string then
    Some (add_to_expression self (PyNum.str P (VFloat PyNum.math_pi)))
  else if (char =? "e")%string then
    Some (add_to_expression self (PyNum.str P (VFloat PyNum.math_e)))
  else if (char =? "M+")%string then memory_store self
  else if (char =? "MR")%string then Some (memory_recall self)
  else if (char =? "MC")%string then Some (memory_clear self)
  else if existsb (String.eqb char) ["sin"; "cos"; "tan"; "log"; "sqrt"; "exp"] then
    Some (add_to_expression self (String.append char "("))
  else Some (add_to_expression self char).

(** What [bind_keys] and [create_buttons] attach to each event. *)
Definition handle (self : state) (ev : event) : option state :=
  match ev with
  | Key char => Some (key_input self char)
  | Return => evaluate self
  | BackSpace => Some (delete_last self)
  | Escape => Some (clear self)
  | Button text => on_button_click self text
  | Toggle => Some (toggle_deg_rad self)
  end.

(** The events handled one after the other, as the main loop does. *)
Fixpoint run (self : state) (evs : list event) : option state :=
  match evs with
  | [] => Some self
  | ev :: evs' =>
      match handle self ev with
      | Some self' => run self' evs'
      | None => None
      end
  end.

End WithPlatform.




(** A key press for each character of [s]. *)
Definition keys (s : string) : list event :=
  map (fun c => Key (String c "")) (list_ascii_of_string s).

(** A click on the button of each character of [s]. *)
Definition clicks (s : string) : list event :=
  map (fun c => Button (String c "")) (list_ascii_of_string s).

(** The presses of the DEG/RAD button among the events. *)
Definition toggles (evs : list event) : nat :=
  List.length (filter (fun ev => match ev with Toggle => true | _ => false end) evs).

(** The display and the pending expression agree, or the display reads
    [Error] and nothing is pending. *)
Definition shows_expression (self : state) : Prop :=
  entry self = expression self \/ (entry self = "Error" /\ expression self = "").

End App.
(** * Properties *)

(** ** The whitelist *)

(** ** Rounding never loses a nonzero integer *)

Lemma digits2_pos_size (p : positive) : digits2_pos p = Pos.size p.
Proof. induction p; simpl; congruence. Qed.

Lemma Zdigits2_log2 (m : Z) : 0 < m -> Zdigits2 m = Z.log2 m + 1.
Proof.
  destruct m as [| p | p]; try lia; intros _; simpl.
  rewrite digits2_pos_size.
  destruct p; simpl; lia.
Qed.

Lemma shr_m_shr_1 (mrs : shr_record) :
  0 <= shr_m mrs -> shr_m (shr_1 mrs) = Z.div2 (shr_m mrs).
Proof.
  destruct mrs as [m r s]; simpl.
  destruct m as [| [p | p |] | p]; simpl; intros; try reflexivity; lia.
Qed.

Lemma shr_m_iter (p : positive) : forall mrs,
  0 <= shr_m mrs ->
  shr_m (iter_pos shr_1 p mrs) = Z.shiftr (shr_m mrs) (Zpos p).
Proof.
  induction p as [p IH | p IH |]; intros mrs Hm; simpl iter_pos.
  - assert (H1 : 0 <= shr_m (shr_1 mrs)).
    { rewrite shr_m_shr_1 by assumption. rewrite Z.div2_nonneg; assumption. }
    assert (H2 : 0 <= shr_m (iter_pos shr_1 p (shr_1 mrs))).
    { rewrite IH by assumption. apply Z.shiftr_nonneg; assumption. }
    rewrite IH, IH, shr_m_shr_1 by assumption.
    rewrite Z.div2_spec, !Z.shiftr_shiftr by lia.
    f_equal; lia.
  - assert (H2 : 0 <= shr_m (iter_pos shr_1 p mrs)).
    { rewrite IH by assumption. apply Z.shiftr_nonneg; assumption. }
    rewrite IH, IH by assumption.
    rewrite Z.shiftr_shiftr by lia.
    f_equal; lia.
  - rewrite shr_m_shr_1 by assumption. apply Z.div2_spec.
Qed.

(** One [shr_fexp] step on a positive mantissa whose value is not below the
    smallest normal number: the mantissa stays positive and the magnitude
    [digits + exponent] is unchanged. *)
Lemma shr_fexp_positive (m e : Z) (l : location) :
  0 < m -> -1021 <= Zdigits2 m + e ->
  let '(mrs, e') := shr_fexp F64.prec F64.emax m e l in
  0 < shr_m mrs /\ Zdigits2 (shr_m mrs) + e' = Zdigits2 m + e.
Proof.
  intros Hm He. unfold shr_fexp, shr, fexp, emin, F64.prec, F64.emax.
  assert (Hd := Zdigits2_log2 m Hm).
  assert (Hl := Z.log2_nonneg m).
  replace (Z.max (Zdigits2 m + e - 53) (3 - 1024 - 53) - e) with (Zdigits2 m - 53) by lia.
  destruct (Zdigits2 m - 53) as [| n | n] eqn:Hn.
  - destruct l as [| []]; simpl; auto.
  - assert (Hs : shr_m (iter_pos shr_1 n (shr_record_of_loc m l)) = Z.shiftr m (Zpos n)).
    { rewrite shr_m_iter; destruct l as [| []]; simpl; try reflexivity; lia. }
    rewrite Hs.
    assert (Hpos : 0 < Z.shiftr m (Zpos n)).
    { assert (H0 := Z.shiftr_nonneg m (Zpos n)).
      assert (Hne : Z.shiftr m (Zpos n) <> 0).
      { rewrite Z.shiftr_eq_0_iff by lia. lia. }
      lia. }
    split; [assumption |].
    rewrite (Zdigits2_log2 _ Hpos), Z.log2_shiftr by assumption. lia.
  - destruct l as [| []]; simpl; auto.
Qed.

Lemma round_nearest_even_cases (m : Z) (l : location) :
  round_nearest_even m l = m \/ round_nearest_even m l = m + 1.
Proof. destruct l as [| []]; simpl; auto. destruct (Z.even m); auto. Qed.

Lemma Zdigits2_succ (m : Z) : 0 < m -> Zdigits2 m <= Zdigits2 (m + 1) <= Zdigits2 m + 1.
Proof.
  intros Hm. rewrite !Zdigits2_log2 by lia.
  assert (H1 := Z.log2_le_mono m (m + 1)).
  assert (H2 := Z.log2_succ_le m). unfold Z.succ in H2. lia.
Qed.

Lemma binary_round_aux_positive (s : bool) (m e : Z) (l : location) :
  0 < m -> -1021 <= Zdigits2 m + e ->
  (exists m' e', binary_round_aux F64.prec F64.emax s m e l = S754_finite s m' e')
  \/ binary_round_aux F64.prec F64.emax s m e l = S754_infinity s.
Proof.
  intros Hm He. unfold binary_round_aux.
  assert (H1 := shr_fexp_positive m e l Hm He).
  destruct (shr_fexp F64.prec F64.emax m e l) as [mrs' e'].
  destruct H1 as [Hpos1 Hmag1].
  set (m2 := round_nearest_even (shr_m mrs') (loc_of_shr_record mrs')).
  assert (Hm2 : 0 < m2 /\ -1021 <= Zdigits2 m2 + e').
  { subst m2. assert (Hs := Zdigits2_succ _ Hpos1).
    destruct (round_nearest_even_cases (shr_m mrs') (loc_of_shr_record mrs')) as [-> | ->]; lia. }
  destruct Hm2 as [Hpos2 Hmag2].
  assert (H2 := shr_fexp_positive m2 e' loc_Exact Hpos2 Hmag2).
  destruct (shr_fexp F64.prec F64.emax m2 e' loc_Exact) as [mrs'' e''].
  destruct H2 as [Hpos3 _].
  destruct (shr_m mrs'') as [| p | p]; try lia.
  destruct (e'' <=? F64.emax - F64.prec); eauto.
Qed.

Lemma Zdigits2_pos_ge_1 (p : positive) : 1 <= Zdigits2 (Zpos p).
Proof. simpl. lia. Qed.

Lemma binary_round_integer (s : bool) (p : positive) :
  (exists m e, binary_round F64.prec F64.emax s p 0 = S754_finite s m e)
  \/ binary_round F64.prec F64.emax s p 0 = S754_infinity s.
Proof.
  unfold binary_round.
  destruct (shl_align p 0 (fexp F64.prec F64.emax (Zpos (digits2_pos p) + 0))) as [mz ez] eqn:Hal.
  assert (Hez : -52 <= ez).
  { unfold shl_align in Hal.
    assert (Hf : -52 <= fexp F64.prec F64.emax (Zpos (digits2_pos p) + 0)).
    { unfold fexp, emin, F64.prec, F64.emax. lia. }
    destruct (fexp F64.prec F64.emax (Zpos (digits2_pos p) + 0) - 0);
      inversion Hal; subst; rewrite ?Z.add_0_r in *; lia. }
  assert (Hd := Zdigits2_pos_ge_1 mz).
  apply binary_round_aux_positive; lia.
Qed.

(** A negative integer becomes a negative double or overflows; it never
    rounds to zero. *)
Lemma of_Z_negative (p : positive) :
  (exists m e, F64.of_Z (Zneg p) = S754_finite true m e)
  \/ F64.of_Z (Zneg p) = S754_infinity true.
Proof. apply (binary_round_integer true p). Qed.


(** ** Undefined operations *)

Section UndefinedOperations.
Context (P : Platform).

Lemma as_double_int_cases (n : Z) :
  (PyNum.as_double (VInt n) = OK (F64.of_Z n) /\ F64.isinf (F64.of_Z n) = false)
  \/ (PyNum.as_double (VInt n) = Raise OverflowError /\ Operand.too_large (VInt n) = true).
Proof.
  unfold PyNum.as_double, PyNum.int_to_float, Operand.too_large.
  destruct (F64.isinf (F64.of_Z n)); auto.
Qed.

Lemma float_truediv_zero (x y : spec_float) :
  F64.eqb y F64.zero = true -> PyNum.float_truediv x y = Raise ZeroDivisionError.
Proof. unfold PyNum.float_truediv. intros ->. reflexivity. Qed.

(** [a / b] with a number [a] and a zero [b] raises [ZeroDivisionError],
    unless [a] is an integer that first fails to become a float. *)
Lemma truediv_by_zero (a b : value) :
  is_number a = true -> Operand.is_zero b = true ->
  PyNum.truediv P a b = Raise ZeroDivisionError
  \/ (Operand.too_large a = true /\ PyNum.truediv P a b = Raise OverflowError).
Proof.
  intros Ha Hb.
  destruct a as [x | x | xr xi | f]; try discriminate Ha;
    destruct b as [y | y | yr yi | g]; try discriminate Hb; simpl in Hb.
  - apply Z.eqb_eq in Hb; subst y. left. reflexivity.
  - unfold PyNum.truediv, PyNum.arith.
    destruct (as_double_int_cases x) as [[-> _] | [-> Hl]]; simpl.
    + left. apply float_truediv_zero, Hb.
    + right. auto.
  - unfold PyNum.truediv, PyNum.arith, PyNum.as_complex.
    destruct (as_double_int_cases x) as [[-> _] | [-> Hl]]; simpl.
    + left. unfold PyNum.complex_is_zero; simpl. rewrite Hb. reflexivity.
    + right. auto.
  - apply Z.eqb_eq in Hb; subst y. left. reflexivity.
  - left. unfold PyNum.truediv, PyNum.arith; simpl. apply float_truediv_zero, Hb.
  - left. unfold PyNum.truediv, PyNum.arith, PyNum.complex_is_zero; simpl.
    rewrite Hb. reflexivity.
  - apply Z.eqb_eq in Hb; subst y. left. reflexivity.
  - left. unfold PyNum.truediv, PyNum.arith, PyNum.complex_is_zero; simpl.
    rewrite Hb. reflexivity.
  - left. unfold PyNum.truediv, PyNum.arith, PyNum.complex_is_zero; simpl.
    rewrite Hb. reflexivity.
Qed.

Lemma ltb_zero_cases (x : spec_float) :
  F64.ltb x F64.zero = true ->
  x = S754_infinity true \/ exists m e, x = S754_finite true m e.
Proof.
  destruct x as [s | [] | | [] m e]; try discriminate; eauto.
Qed.

Lemma math_sqrt_negative_float (x : spec_float) :
  F64.ltb x F64.zero = true ->
  PyNum.math_1 F64.sqrt false (VFloat x) = Raise PyNum.domain_error.
Proof.
  intros H. destruct (ltb_zero_cases x H) as [-> | (m & e & ->)]; reflexivity.
Qed.

(** [sqrt] of a number below zero raises the domain error, unless the number
    is an integer that first fails to become a float. *)
Lemma sqrt_of_negative (a : value) :
  Operand.is_negative a = true ->
  PyNum.call_math P math_sqrt [a] = Raise PyNum.domain_error
  \/ (Operand.too_large a = true /\ PyNum.call_math P math_sqrt [a] = Raise OverflowError).
Proof.
  destruct a as [n | x | |]; try discriminate; simpl; intros H.
  - destruct n as [| p | p]; try discriminate H.
    unfold PyNum.math_1.
    destruct (as_double_int_cases (Zneg p)) as [[-> Hfin] | [-> Hl]]; unfold bind.
    + left. destruct (of_Z_negative p) as [(m & e & ->) | Hinf].
      * reflexivity.
      * rewrite Hinf in Hfin. discriminate.
    + right. auto.
  - left. apply math_sqrt_negative_float, H.
Qed.

Lemma m_log_nonpositive (x : spec_float) :
  SFleb x F64.zero = true -> PyNum.m_log P x = Raise PyNum.domain_error.
Proof.
  destruct x as [s | [] | | [] m e]; try discriminate; reflexivity.
Qed.

Lemma loghelper_nonpositive (a : value) :
  Operand.is_nonpositive a = true -> PyNum.loghelper P a = Raise PyNum.domain_error.
Proof.
  destruct a as [n | x | |]; try discriminate; simpl; intros H.
  - rewrite H. reflexivity.
  - apply m_log_nonpositive, H.
Qed.

(** [log] of a number that is zero or below raises the domain error, with or
    without a base. *)
Lemma log_of_nonpositive (a : value) (rest : list value) :
  Operand.is_nonpositive a = true -> (List.length rest <= 1)%nat ->
  PyNum.call_math P math_log (a :: rest) = Raise PyNum.domain_error.
Proof.
  intros H Hlen. simpl. unfold PyNum.log.
  destruct rest as [| base [| ? ?]]; simpl in Hlen; try lia;
    rewrite (loghelper_nonpositive a H); reflexivity.
Qed.

End UndefinedOperations.

(** ** The evaluator, node by node *)

Section Evaluator.
Context (P : Platform).

Lemma eval_Call (deg : bool) (f : ast.expr) (args : list ast.expr) (kws : list (string * ast.expr)) :
  SafeEval._eval P deg (ast.Call f args kws) =
  (func_name <- SafeEval.func_id f ;;
   if negb (SafeEval.in_allowed_funcs func_name) then Raise (ValueError "Invalid function")
   else args' <- SafeEval.eval_args P deg args ;; SafeEval.apply_func P deg func_name args').
Proof. reflexivity. Qed.

Lemma eval_args_cons (deg : bool) (a : ast.expr) (l : list ast.expr) :
  SafeEval.eval_args P deg (a :: l) =
  (v <- SafeEval._eval P deg a ;; vs <- SafeEval.eval_args P deg l ;; OK (v :: vs)).
Proof. reflexivity. Qed.

Lemma eval_args_length (deg : bool) (l : list ast.expr) : forall vs,
  SafeEval.eval_args P deg l = OK vs -> List.length vs = List.length l.
Proof.
  induction l as [| a l IH]; intros vs H.
  - inversion H. reflexivity.
  - rewrite eval_args_cons in H.
    destruct (SafeEval._eval P deg a) as [v | e]; [| discriminate].
    simpl in H. destruct (SafeEval.eval_args P deg l) as [vs' | e]; [| discriminate].
    inversion H; subst. simpl. f_equal. apply IH. reflexivity.
Qed.

(** A call whose keywords are dropped evaluates alike: line 36 reads
    [node.args] only. *)
Lemma eval_Call_ignores_keywords (deg : bool) (f : ast.expr) (args : list ast.expr)
    (kws kws' : list (string * ast.expr)) :
  SafeEval._eval P deg (ast.Call f args kws) = SafeEval._eval P deg (ast.Call f args kws').
Proof. reflexivity. Qed.

End Evaluator.

(** ** What a tree must look like to evaluate *)

Section Shapes.
Context (P : Platform).







End Shapes.

(** ** Claims *)

(** *** C7: a bare name *)

(** C7, counterexample: the bare name [sin] evaluates, without any error, to
    the function object itself. *)
Lemma bare_sin_is_not_an_error :
  SafeEval.eval_expr Sample.platform false "sin" = Some (OK (VFunc math_sin)).
Proof. reflexivity. Qed.

(** C7, as amended: a bare whitelisted name evaluates to whatever the table
    binds it to.  For [sin], [cos], [tan], [log], [sqrt] and [exp] that is
    the function object, returned without an error and shown by [evaluate]
    as its [str]; arithmetic on it raises [TypeError].  For [pi] and [e] it
    is the number. *)
Theorem bare_name_returns_table_entry (P : Platform) (deg : bool) :
  (forall id,
     SafeEval._eval P deg (ast.Name id) =
     match SafeEval.lookup String.eqb id SafeEval.allowed_funcs with
     | Some v => OK v
     | None => Raise (ValueError "Invalid variable")
     end)
  /\ SafeEval.eval_expr P deg "sin" = Some (OK (VFunc math_sin))
  /\ SafeEval.eval_expr P deg "cos" = Some (OK (VFunc math_cos))
  /\ SafeEval.eval_expr P deg "tan" = Some (OK (VFunc math_tan))
  /\ SafeEval.eval_expr P deg "log" = Some (OK (VFunc math_log))
  /\ SafeEval.eval_expr P deg "sqrt" = Some (OK (VFunc math_sqrt))
  /\ SafeEval.eval_expr P deg "exp" = Some (OK (VFunc math_exp))
  /\ SafeEval.eval_expr P deg "pi" = Some (OK (VFloat PyNum.math_pi))
  /\ SafeEval.eval_expr P deg "e" = Some (OK (VFloat PyNum.math_e))
  /\ option_map ScientificCalculator.entry
       (ScientificCalculator.evaluate P (ScientificCalculator.pending deg "sin"))
     = Some "<built-in function sin>"
  /\ SafeEval.eval_expr P deg "sin+1" = Some (Raise TypeError).
Proof. repeat split. Qed.

(** *** C10: the logarithm *)



Lemma apply_func_log (P : Platform) (deg : bool) (vs : list value) :
  SafeEval.apply_func P deg "log" vs = PyNum.log P vs.
Proof. destruct deg; reflexivity. Qed.



(** *** C3: degree mode *)




(** *** C6: argument counts *)

Lemma call_math_unary_arity (P : Platform) (f : mathfn) (vs : list value) :
  f <> math_log -> List.length vs <> 1%nat -> PyNum.call_math P f vs = Raise TypeError.
Proof.
  intros Hf Hlen. destruct vs as [| a [| b vs]]; simpl in Hlen; try lia;
    destruct f; try reflexivity; congruence.
Qed.

Lemma radians_errors (a : value) :
  (exists x, PyNum.radians a = OK (VFloat x))
  \/ PyNum.radians a = Raise TypeError \/ PyNum.radians a = Raise OverflowError.
Proof.
  unfold PyNum.radians. destruct a as [n | x | |]; simpl; eauto.
  unfold PyNum.int_to_float. destruct (F64.isinf (F64.of_Z n)); simpl; eauto.
Qed.

Lemma apply_func_unary_arity (P : Platform) (deg : bool) (name : string) (vs : list value) :
  In name ["sin"; "cos"; "tan"; "sqrt"; "exp"] -> List.length vs <> 1%nat ->
  In (SafeEval.apply_func P deg name vs)
     [Raise TypeError; Raise IndexError; Raise OverflowError].
Proof.
  intros Hname Hlen.
  assert (Hf : exists f, SafeEval.lookup String.eqb name SafeEval.allowed_funcs = Some (VFunc f)
                         /\ f <> math_log).
  { simpl in Hname.
    destruct Hname as [<- | [<- | [<- | [<- | [<- | []]]]]];
      eexists; (split; [reflexivity | discriminate]). }
  destruct Hf as (f & Hlookup & Hf).
  unfold SafeEval.apply_func.
  destruct (existsb (String.eqb name) ["sin"; "cos"; "tan"] && deg).
  - destruct vs as [| a rest]; [simpl; auto |].
    destruct (radians_errors a) as [(x & ->) | [-> | ->]]; unfold bind; cbv beta iota;
      [| simpl; auto ..].
    rewrite Hlookup. unfold PyNum.call.
    rewrite call_math_unary_arity by (simpl in *; assumption). simpl; auto.
  - unfold bind; cbv beta iota. rewrite Hlookup. unfold PyNum.call.
    rewrite call_math_unary_arity by assumption. simpl; auto.
Qed.

(** C6, counterexample: [log(8,2)] has two arguments and evaluates to
    [3.0]. *)
Lemma log_with_base_is_accepted :
  SafeEval.eval_expr Sample.platform false "log(8,2)" = Some (OK (VFloat F64.three)).
Proof. vm_compute. reflexivity. Qed.

(** C6, as amended: a call of [sin], [cos], [tan], [sqrt] or [exp] with an
    argument count other than one never returns a value: once the arguments
    are evaluated it raises [TypeError], or [IndexError] (no argument to
    convert in degree mode), or [OverflowError] (the first argument does not
    convert).  [log] takes one or two arguments, the second being the base:
    with two it divides the two natural logarithms, with none or more than
    two it raises [TypeError]. *)
Theorem arity_of_whitelisted_calls (P : Platform) (deg : bool) :
  (forall name args kws,
     In name ["sin"; "cos"; "tan"; "sqrt"; "exp"] -> List.length args <> 1%nat ->
     is_ok (SafeEval._eval P deg (ast.Call (ast.Name name) args kws)) = false)
  /\ (forall name vs,
        In name ["sin"; "cos"; "tan"; "sqrt"; "exp"] -> List.length vs <> 1%nat ->
        In (SafeEval.apply_func P deg name vs)
           [Raise TypeError; Raise IndexError; Raise OverflowError])
  /\ (forall x base,
        SafeEval.apply_func P deg "log" [x; base] =
        (num <- PyNum.loghelper P x ;; den <- PyNum.loghelper P base ;;
         PyNum.float_truediv num den))
  /\ (forall vs, List.length vs <> 1%nat -> List.length vs <> 2%nat ->
        SafeEval.apply_func P deg "log" vs = Raise TypeError).
Proof.
  repeat match goal with |- _ /\ _ => split end.
  - intros name args kws Hname Hlen. rewrite eval_Call. simpl SafeEval.func_id. unfold bind at 1.
    destruct (negb (SafeEval.in_allowed_funcs name)); [reflexivity |].
    destruct (SafeEval.eval_args P deg args) as [vs | e] eqn:Hargs; [| reflexivity].
    apply eval_args_length in Hargs. simpl.
    assert (Hvs : List.length vs <> 1%nat) by congruence.
    pose proof (apply_func_unary_arity P deg name vs Hname Hvs) as H. simpl in H.
    destruct H as [<- | [<- | [<- | []]]]; reflexivity.
  - intros name vs. apply apply_func_unary_arity.
  - intros x base. rewrite apply_func_log. reflexivity.
  - intros vs H1 H2. rewrite apply_func_log.
    destruct vs as [| a [| b [| c vs]]]; simpl in H1, H2; try lia; reflexivity.
Qed.

Lemma arity_of_whitelisted_calls_witness :
  is_ok (SafeEval._eval Sample.platform true
           (ast.Call (ast.Name "sqrt") [ast.Constant (ast.CInt 1); ast.Constant (ast.CInt 2)] []))
    = false
  /\ In (SafeEval.apply_func Sample.platform true "sin" [])
        [Raise TypeError; Raise IndexError; Raise OverflowError]
  /\ SafeEval.apply_func Sample.platform false "log" [] = Raise TypeError.
Proof.
  pose proof (arity_of_whitelisted_calls Sample.platform true) as (Htree & Hfun & _ & _).
  pose proof (arity_of_whitelisted_calls Sample.platform false) as (_ & _ & _ & Hlog).
  split; [| split].
  - apply Htree; simpl; auto; discriminate.
  - apply Hfun; simpl; auto; discriminate.
  - apply Hlog; discriminate.
Defined.

(** *** C4: undefined operations *)

(** C4, counterexample: the square root of a negative integer too large for
    a double fails in the conversion, with [OverflowError], before [sqrt]
    can report a domain error. *)
Lemma sqrt_of_huge_negative_overflows :
  ScientificCalculator.computed Sample.platform
    (ScientificCalculator.pending true "sqrt(-10^400)")
  = Some (Raise OverflowError).
Proof. vm_compute. reflexivity. Qed.

(** C4, as amended: dividing a number by a zero, taking [sqrt] of a number
    below zero and taking [log] of a number that is zero or below never
    return a value.  The division raises [ZeroDivisionError], [sqrt] and
    [log] raise [ValueError('math domain error')]; only where an integer
    operand is too large to become a float does the division or [sqrt] raise
    [OverflowError] instead.  [1/0] raises [ZeroDivisionError] and
    [sqrt(-1)] the domain error. *)
Theorem undefined_operations_raise (P : Platform) (deg : bool) :
  (forall l r a b,
     SafeEval._eval P deg l = OK a -> SafeEval._eval P deg r = OK b ->
     is_number a = true -> Operand.is_zero b = true ->
     SafeEval._eval P deg (ast.BinOp l ast.Div r) = Raise ZeroDivisionError
     \/ (Operand.too_large a = true
         /\ SafeEval._eval P deg (ast.BinOp l ast.Div r) = Raise OverflowError))
  /\ (forall arg a kws,
        SafeEval._eval P deg arg = OK a -> Operand.is_negative a = true ->
        SafeEval._eval P deg (ast.Call (ast.Name "sqrt") [arg] kws) = Raise PyNum.domain_error
        \/ (Operand.too_large a = true
            /\ SafeEval._eval P deg (ast.Call (ast.Name "sqrt") [arg] kws)
               = Raise OverflowError))
  /\ (forall arg a kws,
        SafeEval._eval P deg arg = OK a -> Operand.is_nonpositive a = true ->
        SafeEval._eval P deg (ast.Call (ast.Name "log") [arg] kws) = Raise PyNum.domain_error)
  /\ ScientificCalculator.computed P (ScientificCalculator.pending deg "1/0")
     = Some (Raise ZeroDivisionError)
  /\ ScientificCalculator.computed P (ScientificCalculator.pending deg "sqrt(-1)")
     = Some (Raise PyNum.domain_error).
Proof.
  repeat match goal with |- _ /\ _ => split end.
  - intros l r a b Hl Hr Ha Hb.
    change (SafeEval._eval P deg (ast.BinOp l ast.Div r))
      with (x <- SafeEval._eval P deg l ;; y <- SafeEval._eval P deg r ;;
            PyNum.truediv P x y).
    rewrite Hl, Hr. apply truediv_by_zero; assumption.
  - intros arg a kws Harg Ha.
    rewrite eval_Call, eval_args_cons, Harg.
    change (SafeEval.eval_args P deg []) with (@OK (list value) []).
    replace (func_name <- SafeEval.func_id (ast.Name "sqrt") ;;
             (if negb (SafeEval.in_allowed_funcs func_name)
              then Raise (ValueError "Invalid function")
              else args' <- (v <- OK a ;; vs <- OK [] ;; OK (v :: vs)) ;;
                   SafeEval.apply_func P deg func_name args'))
      with (PyNum.call_math P math_sqrt [a]) by (destruct deg; reflexivity).
    apply sqrt_of_negative, Ha.
  - intros arg a kws Harg Ha.
    rewrite eval_Call, eval_args_cons, Harg.
    change (SafeEval.eval_args P deg []) with (@OK (list value) []).
    replace (func_name <- SafeEval.func_id (ast.Name "log") ;;
             (if negb (SafeEval.in_allowed_funcs func_name)
              then Raise (ValueError "Invalid function")
              else args' <- (v <- OK a ;; vs <- OK [] ;; OK (v :: vs)) ;;
                   SafeEval.apply_func P deg func_name args'))
      with (PyNum.call_math P math_log [a]) by (destruct deg; reflexivity).
    apply log_of_nonpositive; [exact Ha | simpl; lia].
  - destruct deg; reflexivity.
  - destruct deg; reflexivity.
Qed.

Lemma undefined_operations_raise_witness :
  (SafeEval._eval Sample.platform false
     (ast.BinOp (ast.Constant (ast.CInt 1)) ast.Div (ast.Constant (ast.CFloat F64.zero)))
   = Raise ZeroDivisionError
   \/ (Operand.too_large (VInt 1) = true
       /\ SafeEval._eval Sample.platform false
            (ast.BinOp (ast.Constant (ast.CInt 1)) ast.Div (ast.Constant (ast.CFloat F64.zero)))
          = Raise OverflowError))
  /\ (SafeEval._eval Sample.platform false
        (ast.Call (ast.Name "sqrt") [ast.Constant (ast.CInt (-1))] [])
      = Raise PyNum.domain_error
      \/ (Operand.too_large (VInt (-1)) = true
          /\ SafeEval._eval Sample.platform false
               (ast.Call (ast.Name "sqrt") [ast.Constant (ast.CInt (-1))] [])
             = Raise OverflowError))
  /\ SafeEval._eval Sample.platform false
       (ast.Call (ast.Name "log") [ast.Constant (ast.CInt 0)] [])
     = Raise PyNum.domain_error.
Proof.
  pose proof (undefined_operations_raise Sample.platform false) as (Hdiv & Hsqrt & Hlog & _).
  split; [| split].
  - apply (Hdiv _ _ (VInt 1) (VFloat F64.zero)); reflexivity.
  - apply (Hsqrt _ (VInt (-1))); reflexivity.
  - apply (Hlog _ (VInt 0)); reflexivity.
Defined.

(** *** C9: the flag is copied in *)

Section CopyIn.
Context (P : Platform) (schedule : nat -> nat).








End CopyIn.



(** *** C1: the whitelist *)

(** C1, the failing input: the call [exp(1, x=foo)] names [foo], which is not
    whitelisted, and evaluates to a number, the double [e]: the keyword
    arguments of a call are never inspected. *)
Theorem keyword_arguments_escape_the_whitelist :
  SafeEval.eval_expr Sample.platform false "exp(1, x=foo)" = Some (OK (VFloat PyNum.math_e))
  /\ ast_parse "exp(1, x=foo)"
     = Some (OK (ast.Call (ast.Name "exp") [ast.Constant (ast.CInt 1)]
                   [("x", ast.Name "foo")])).
Proof. split; vm_compute; reflexivity. Qed.

(** On every platform [exp(1, x=foo)] evaluates as [exp(1)] does, the two
    sources the claim names fail, one of them with an [AttributeError]. *)
Lemma whitelist_examples (P : Platform) (deg : bool) :
  SafeEval.eval_expr P deg "exp(1, x=foo)" = SafeEval.eval_expr P deg "exp(1)"
  /\ SafeEval.eval_expr P deg "__import__('os')" = Some (Raise (ValueError "Invalid function"))
  /\ SafeEval.eval_expr P deg "os.system('x')" = Some (Raise AttributeError)
  /\ SafeEval.eval_expr P deg "foo" = Some (Raise (ValueError "Invalid variable"))
  /\ SafeEval.eval_expr P deg "foo(1)" = Some (Raise (ValueError "Invalid function"))
  /\ SafeEval.eval_expr P deg "1+foo" = Some (Raise (ValueError "Invalid variable")).
Proof. repeat split. Qed.



(** *** C5: what the parser rejects and what the evaluator rejects *)




(** ** The parser on written formulas *)

Module ParserFacts.
Import tokenizer parser Written.

(** One step of each rule. *)

Lemma expression_S n ts : expression (S n) ts = disjunction n ts.
Proof. reflexivity. Qed.

Lemma disjunction_S n ts :
  disjunction (S n) ts =
  pbind (conjunction n ts) (fun e rest =>
    match rest with KW_or :: _ => disjunction_loop n [e] rest | _ => Done e rest end).
Proof. reflexivity. Qed.

Lemma conjunction_S n ts :
  conjunction (S n) ts =
  pbind (inversion n ts) (fun e rest =>
    match rest with KW_and :: _ => conjunction_loop n [e] rest | _ => Done e rest end).
Proof. reflexivity. Qed.

Lemma inversion_S n ts : starts ts = true -> inversion (S n) ts = comparison n ts.
Proof. destruct ts as [| [] ts]; try discriminate; reflexivity. Qed.

Lemma comparison_S n ts :
  comparison (S n) ts =
  pbind (sum n ts) (fun e rest =>
    match compare_op rest with
    | Some _ => comparison_loop n e [] [] rest
    | None => Done e rest
    end).
Proof. reflexivity. Qed.

Lemma sum_S n ts : sum (S n) ts = pbind (term n ts) (fun e rest => sum_loop n e rest).
Proof. reflexivity. Qed.

Lemma term_S n ts : term (S n) ts = pbind (factor n ts) (fun e rest => term_loop n e rest).
Proof. reflexivity. Qed.

Lemma factor_S n ts : starts_atom ts = true -> factor (S n) ts = power n ts.
Proof. destruct ts as [| [] ts]; try discriminate; reflexivity. Qed.

Lemma factor_MINUS n ts :
  factor (S n) (MINUS :: ts) =
  pbind (factor n ts) (fun e rest => Done (ast.UnaryOp ast.USub e) rest).
Proof. reflexivity. Qed.

Lemma power_S n ts :
  power (S n) ts =
  pbind (primary n ts) (fun e rest =>
    match rest with
    | DOUBLESTAR :: ts' => pbind (factor n ts') (fun f rest' => Done (ast.BinOp e ast.Pow f) rest')
    | _ => Done e rest
    end).
Proof. reflexivity. Qed.

Lemma primary_S n ts : primary (S n) ts = pbind (atom n ts) (fun e rest => primary_loop n e rest).
Proof. reflexivity. Qed.

Lemma atom_NUMBER n c ts : atom (S n) (NUMBER c :: ts) = Done (ast.Constant c) ts.
Proof. reflexivity. Qed.

Lemma atom_LPAR n ts :
  starts ts = true ->
  atom (S n) (LPAR :: ts) =
  pbind (expression n ts) (fun e rest =>
    match rest with
    | RPAR :: rest' => Done e rest'
    | COMMA :: rest' =>
        pbind (elements n false [e] rest') (fun es rest'' => Done (ast.Tuple es) rest'')
    | _ => Fail
    end).
Proof. destruct ts as [| [] ts]; try discriminate; reflexivity. Qed.

(** The loops stop at what may follow a form of their level. *)

Lemma primary_loop_stop n e rest :
  ends 5 rest = true -> primary_loop (S n) e rest = Done e rest.
Proof. destruct rest as [| [] rest]; try discriminate; reflexivity. Qed.

Lemma term_loop_stop n e rest :
  ends 1 rest = true -> term_loop (S n) e rest = Done e rest.
Proof. destruct rest as [| [] rest]; try discriminate; reflexivity. Qed.

Lemma sum_loop_stop n e rest :
  ends 0 rest = true -> sum_loop (S n) e rest = Done e rest.
Proof. destruct rest as [| [] rest]; try discriminate; reflexivity. Qed.

Lemma sum_loop_operator n lhs op ts :
  fst (Formula.operand_levels op) = 1%nat ->
  sum_loop (S n) lhs (operator_token op :: ts) =
  pbind (term n ts) (fun r rest => sum_loop n (ast.BinOp lhs (Formula.operator_node op) r) rest).
Proof. destruct op; try discriminate; reflexivity. Qed.

Lemma term_loop_operator n lhs op ts :
  fst (Formula.operand_levels op) = 2%nat ->
  term_loop (S n) lhs (operator_token op :: ts) =
  pbind (factor n ts) (fun r rest => term_loop n (ast.BinOp lhs (Formula.operator_node op) r) rest).
Proof. destruct op; try discriminate; reflexivity. Qed.

Lemma ends_mono q q' rest : ends q rest = true -> (q <= q')%nat -> ends q' rest = true.
Proof.
  intros H Hq. destruct rest as [| [] rest]; unfold ends in *;
    try discriminate; try reflexivity;
    apply Nat.leb_le; apply Nat.leb_le in H; lia.
Qed.

Lemma reads_weaken q ts e c c' : (c <= c')%nat -> reads q ts e c -> reads q ts e c'.
Proof. intros Hc H rest n m Hends Hn. apply H; [assumption | lia]. Qed.

Ltac at_level := cbv beta iota delta [parse_at result_at] in *.

(** From each rule to the one above it. *)

Lemma reads_power ts e c : reads 5 ts e c -> reads 4 ts e (S c).
Proof.
  intros H rest n m Hends Hn.
  destruct n as [| n]; [lia |].
  destruct (H rest n m (ends_mono 4 5 rest Hends ltac:(lia)) ltac:(lia)) as (n' & _ & Hp).
  exists m. split; [lia |].
  at_level. rewrite power_S, Hp. simpl pbind.
  destruct rest as [| [] rest]; try discriminate Hends; reflexivity.
Qed.

Lemma reads_factor ts e c : starts_atom ts = true -> reads 4 ts e c -> reads 3 ts e (S c).
Proof.
  intros Hs H rest n m Hends Hn.
  destruct n as [| n]; [lia |].
  destruct (H rest n m (ends_mono 3 4 rest Hends ltac:(lia)) ltac:(lia)) as (n' & _ & Hp).
  exists m. split; [lia |].
  at_level. rewrite factor_S, Hp; [reflexivity |].
  destruct ts as [| [] ts]; try discriminate Hs; reflexivity.
Qed.

Lemma reads_term ts e c : reads 3 ts e c -> reads 2 ts e (S c).
Proof.
  intros H rest n m Hends Hn.
  destruct n as [| n]; [lia |].
  destruct (H rest n m (ends_mono 2 3 rest Hends ltac:(lia)) ltac:(lia)) as (n' & _ & Hp).
  exists n. split; [lia |].
  at_level. rewrite term_S, Hp. reflexivity.
Qed.

Lemma reads_sum ts e c : reads 2 ts e c -> reads 1 ts e (c + 2).
Proof.
  intros H rest n m Hends Hn.
  destruct n as [| n]; [lia |].
  destruct (H rest n 1%nat (ends_mono 1 2 rest Hends ltac:(lia)) ltac:(lia)) as (n' & Hn' & Hp).
  exists n. split; [lia |].
  at_level. rewrite sum_S, Hp.
  destruct n' as [| n']; [lia |].
  rewrite term_loop_stop by assumption. reflexivity.
Qed.

Lemma reads_expression ts e c : starts ts = true -> reads 1 ts e c -> reads 0 ts e (c + 6).
Proof.
  intros Hs H rest n m Hends Hn.
  do 5 (destruct n as [| n]; [lia |]).
  destruct (H rest n 1%nat (ends_mono 0 1 rest Hends ltac:(lia)) ltac:(lia)) as (n' & Hn' & Hp).
  exists m. split; [lia |].
  at_level.
  assert (Hst : starts (ts ++ rest) = true).
  { destruct ts as [| [] ts]; try discriminate Hs; reflexivity. }
  rewrite expression_S, disjunction_S, conjunction_S, inversion_S, comparison_S, Hp by assumption.
  destruct n' as [| n']; [lia |].
  rewrite sum_loop_stop by assumption. simpl pbind.
  destruct rest as [| [] rest]; try discriminate Hends; reflexivity.
Qed.

(** A form in parentheses is an atom. *)
Lemma reads_parenthesised ts e c :
  starts ts = true -> reads 0 ts e c -> reads 5 (LPAR :: ts ++ [RPAR]) e (c + 2).
Proof.
  intros Hs H rest n m Hends Hn.
  do 2 (destruct n as [| n]; [lia |]).
  destruct (H (RPAR :: rest) n 0%nat eq_refl ltac:(lia)) as (n' & _ & Hp).
  exists m. split; [lia |].
  at_level.
  assert (Hst : starts (ts ++ RPAR :: rest) = true).
  { destruct ts as [| [] ts]; try discriminate Hs; reflexivity. }
  rewrite primary_S.
  replace ((LPAR :: ts ++ [RPAR]) ++ rest) with (LPAR :: ts ++ RPAR :: rest)
    by (simpl; rewrite <- app_assoc; reflexivity).
  rewrite atom_LPAR, Hp by assumption. simpl pbind.
  apply primary_loop_stop, Hends.
Qed.

End ParserFacts.

Module FormulaParsing.
Import tokenizer parser Written ParserFacts.

Lemma tokens_unfold p f :
  tokens p f =
  if (Formula.level f <? p)%nat
  then LPAR :: tokens (Formula.level f) f ++ [RPAR]
  else tokens (Formula.level f) f.
Proof. destruct f as [l | g | g | [] l r]; reflexivity. Qed.

Lemma cost_unfold p f :
  cost p f = (natural f + if (Formula.level f <? p)%nat then 24 else 11)%nat.
Proof. destruct f; reflexivity. Qed.

Lemma tokens_own_level f :
  tokens (Formula.level f) f =
  match f with
  | Formula.Lit l => [NUMBER (Formula.literal_constant l)]
  | Formula.Neg g => MINUS :: tokens 3 g
  | Formula.Paren g => LPAR :: tokens 0 g ++ [RPAR]
  | Formula.Bin op l r =>
      tokens (fst (Formula.operand_levels op)) l
      ++ operator_token op :: tokens (snd (Formula.operand_levels op)) r
  end.
Proof. destruct f as [l | g | g | [] l r]; reflexivity. Qed.

Lemma level_bounds f : (1 <= Formula.level f <= 5)%nat.
Proof. destruct f as [l | g | g | [] l r]; simpl; lia. Qed.

Lemma starts_app ts rest : starts ts = true -> starts (ts ++ rest) = true.
Proof. destruct ts as [| [] ts]; try discriminate; reflexivity. Qed.

Lemma starts_atom_app ts rest : starts_atom ts = true -> starts_atom (ts ++ rest) = true.
Proof. destruct ts as [| [] ts]; try discriminate; reflexivity. Qed.

Lemma starts_atom_starts ts : starts_atom ts = true -> starts ts = true.
Proof. destruct ts as [| [] ts]; try discriminate; reflexivity. Qed.

(** A written form of level 4 or 5 begins like an atom. *)
Lemma tokens_starts_atom f : forall p, (4 <= p)%nat -> starts_atom (tokens p f) = true.
Proof.
  induction f as [l | g IH | g IH | op l IHl r IHr]; intros p Hp;
    rewrite tokens_unfold;
    destruct (Formula.level _ <? p)%nat eqn:Hlt; try reflexivity;
    apply Nat.ltb_ge in Hlt; rewrite tokens_own_level; try reflexivity;
    try (simpl in Hlt; lia).
  destruct op; simpl in Hlt; try lia.
  apply starts_atom_app, IHl. simpl. lia.
Qed.

Lemma tokens_starts f : forall p, starts (tokens p f) = true.
Proof.
  induction f as [l | g IH | g IH | op l IHl r IHr]; intros p;
    rewrite tokens_unfold;
    destruct (Formula.level _ <? p)%nat; try reflexivity;
    rewrite tokens_own_level; try reflexivity.
  apply starts_app, IHl.
Qed.

(** From the rule of a form's own level to every rule above it. *)
Lemma reads_above L ts e c :
  (L <= 5)%nat -> starts ts = true -> ((4 <= L)%nat -> starts_atom ts = true) ->
  reads L ts e c -> forall p, (p <= L)%nat -> reads p ts e (c + 11).
Proof.
  intros HL Hs Hsa H.
  assert (H5 : (5 <= L)%nat -> reads 5 ts e c).
  { intros HL5. replace L with 5%nat in H by lia. exact H. }
  assert (H4 : (4 <= L)%nat -> reads 4 ts e (c + 1)).
  { intros HL4. destruct (Nat.eq_dec L 4) as [-> | Hne].
    - eapply reads_weaken; [| exact H]. lia.
    - eapply reads_weaken; [| apply reads_power, H5; lia]. lia. }
  assert (H3 : (3 <= L)%nat -> reads 3 ts e (c + 2)).
  { intros HL3. destruct (Nat.eq_dec L 3) as [-> | Hne].
    - eapply reads_weaken; [| exact H]. lia.
    - eapply reads_weaken; [| apply reads_factor; [apply Hsa; lia | apply H4; lia]]. lia. }
  assert (H2 : (2 <= L)%nat -> reads 2 ts e (c + 3)).
  { intros HL2. destruct (Nat.eq_dec L 2) as [-> | Hne].
    - eapply reads_weaken; [| exact H]. lia.
    - eapply reads_weaken; [| apply reads_term, H3; lia]. lia. }
  assert (H1 : (1 <= L)%nat -> reads 1 ts e (c + 5)).
  { intros HL1. destruct (Nat.eq_dec L 1) as [-> | Hne].
    - eapply reads_weaken; [| exact H]. lia.
    - eapply reads_weaken; [| apply reads_sum, H2; lia]. lia. }
  assert (H0 : reads 0 ts e (c + 11)).
  { destruct (Nat.eq_dec L 0) as [-> | Hne].
    - eapply reads_weaken; [| exact H]. lia.
    - eapply reads_weaken; [| apply reads_expression; [exact Hs | apply H1; lia]]. lia. }
  intros p Hp.
  destruct p as [| [| [| [| [| p]]]]].
  - exact H0.
  - eapply reads_weaken; [| apply H1; lia]. lia.
  - eapply reads_weaken; [| apply H2; lia]. lia.
  - eapply reads_weaken; [| apply H3; lia]. lia.
  - eapply reads_weaken; [| apply H4; lia]. lia.
  - replace (S (S (S (S (S p))))) with 5%nat by lia.
    eapply reads_weaken; [| apply H5; lia]. lia.
Qed.

Lemma ends_power_factor rest : ends 4 rest = true -> ends 3 rest = true.
Proof. destruct rest as [| [] rest]; try discriminate; reflexivity. Qed.

(** The rule of a form's own level reads it. *)
Lemma reads_literal c : reads 5 [NUMBER c] (ast.Constant c) 2.
Proof.
  intros rest n m Hends Hn. do 2 (destruct n as [| n]; [lia |]).
  exists m. split; [lia |]. at_level.
  rewrite primary_S. simpl app. rewrite atom_NUMBER. simpl pbind.
  apply primary_loop_stop, Hends.
Qed.

Lemma reads_negation ts e c :
  reads 3 ts e c -> reads 3 (MINUS :: ts) (ast.UnaryOp ast.USub e) (1 + c).
Proof.
  intros H rest n m Hends Hn. destruct n as [| n]; [lia |].
  destruct (H rest n m Hends ltac:(lia)) as (n' & _ & Hp).
  exists m. split; [lia |]. at_level.
  simpl app. rewrite factor_MINUS, Hp. reflexivity.
Qed.

Lemma reads_binary op tl tr el er cl cr :
  reads (fst (Formula.operand_levels op)) tl el cl ->
  reads (snd (Formula.operand_levels op)) tr er cr ->
  reads (Formula.level (Formula.Bin op (Formula.Lit (Formula.Integer [])) (Formula.Lit (Formula.Integer []))))
    (tl ++ operator_token op :: tr) (ast.BinOp el (Formula.operator_node op) er) (cl + 2 + cr).
Proof.
  intros Hl Hr rest n m Hends Hn.
  rewrite <- app_assoc. simpl app.
  destruct op; simpl Formula.level in *; simpl Formula.operand_levels in *; simpl fst in *;
    simpl snd in *; simpl operator_token; simpl Formula.operator_node.
  - (* Plus *)
    destruct (Hl (PLUS :: tr ++ rest) n (m + 2 + cr)%nat eq_refl ltac:(lia)) as (n1 & Hn1 & Hp).
    destruct n1 as [| n2]; [lia |].
    destruct (Hr rest n2 1%nat (ends_mono 1 2 rest Hends ltac:(lia)) ltac:(lia)) as (n3 & Hn3 & Hq).
    destruct n3 as [| n3]; [lia |].
    exists n2. split; [lia |]. at_level.
    rewrite Hp. rewrite (sum_loop_operator n2 el Formula.Plus) by reflexivity.
    rewrite Hq, term_loop_stop by assumption. reflexivity.
  - (* Minus *)
    destruct (Hl (MINUS :: tr ++ rest) n (m + 2 + cr)%nat eq_refl ltac:(lia)) as (n1 & Hn1 & Hp).
    destruct n1 as [| n2]; [lia |].
    destruct (Hr rest n2 1%nat (ends_mono 1 2 rest Hends ltac:(lia)) ltac:(lia)) as (n3 & Hn3 & Hq).
    destruct n3 as [| n3]; [lia |].
    exists n2. split; [lia |]. at_level.
    rewrite Hp. rewrite (sum_loop_operator n2 el Formula.Minus) by reflexivity.
    rewrite Hq, term_loop_stop by assumption. reflexivity.
  - (* Times *)
    destruct (Hl (STAR :: tr ++ rest) n (m + 2 + cr)%nat eq_refl ltac:(lia)) as (n1 & Hn1 & Hp).
    destruct n1 as [| n2]; [lia |].
    destruct (Hr rest n2 0%nat (ends_mono 2 3 rest Hends ltac:(lia)) ltac:(lia)) as (n3 & Hn3 & Hq).
    exists n2. split; [lia |]. at_level.
    rewrite Hp. rewrite (term_loop_operator n2 el Formula.Times) by reflexivity.
    rewrite Hq. reflexivity.
  - (* Divide *)
    destruct (Hl (SLASH :: tr ++ rest) n (m + 2 + cr)%nat eq_refl ltac:(lia)) as (n1 & Hn1 & Hp).
    destruct n1 as [| n2]; [lia |].
    destruct (Hr rest n2 0%nat (ends_mono 2 3 rest Hends ltac:(lia)) ltac:(lia)) as (n3 & Hn3 & Hq).
    exists n2. split; [lia |]. at_level.
    rewrite Hp. rewrite (term_loop_operator n2 el Formula.Divide) by reflexivity.
    rewrite Hq. reflexivity.
  - (* Power *)
    destruct n as [| n]; [lia |].
    destruct (Hl (DOUBLESTAR :: tr ++ rest) n 0%nat eq_refl ltac:(lia)) as (n1 & _ & Hp).
    destruct (Hr rest n 0%nat (ends_power_factor rest Hends) ltac:(lia)) as (n3 & _ & Hq).
    exists m. split; [lia |]. at_level.
    rewrite power_S, Hp. simpl pbind. rewrite Hq. reflexivity.
Qed.

(** From a form's own level to any level, in parentheses where the level
    asked for is higher. *)
Lemma reads_any_level f :
  reads (Formula.level f) (tokens (Formula.level f) f) (Formula.tree f) (natural f) ->
  forall p, (p <= 5)%nat -> reads p (tokens p f) (Formula.tree f) (cost p f).
Proof.
  intros Hown p Hp. rewrite tokens_unfold, cost_unfold.
  pose proof (level_bounds f) as Hlev.
  pose proof (tokens_starts f (Formula.level f)) as Hst.
  assert (Hsa : (4 <= Formula.level f)%nat ->
                starts_atom (tokens (Formula.level f) f) = true)
    by (intros; apply tokens_starts_atom; assumption).
  pose proof (reads_above _ _ _ _ (proj2 Hlev) Hst Hsa Hown) as Habove.
  destruct (Formula.level f <? p)%nat eqn:Hlt.
  - assert (Hpar : reads 5 (LPAR :: tokens (Formula.level f) f ++ [RPAR]) (Formula.tree f)
                     (natural f + 13)).
    { eapply reads_weaken; [| apply reads_parenthesised; [exact Hst | apply Habove; lia]].
      lia. }
    pose proof (reads_above 5 (LPAR :: tokens (Formula.level f) f ++ [RPAR]) (Formula.tree f)
                  (natural f + 13) (le_n 5) eq_refl (fun _ => eq_refl) Hpar p Hp) as Hall.
    eapply reads_weaken; [| exact Hall]. lia.
  - apply Nat.ltb_ge in Hlt. apply Habove, Hlt.
Qed.

(** Every written formula is read, by the rule of any level, as its tree. *)
Lemma reads_formula f :
  Formula.wf f = true -> forall p, (p <= 5)%nat -> reads p (tokens p f) (Formula.tree f) (cost p f).
Proof.
  induction f as [l | g IH | g IH | op l IHl r IHr]; intros Hwf;
    apply reads_any_level; rewrite tokens_own_level.
  - apply reads_literal.
  - apply (reads_negation _ _ _ (IH Hwf 3%nat ltac:(lia))).
  - eapply reads_weaken; [| apply reads_parenthesised; [apply tokens_starts | apply (IH Hwf); lia]].
    simpl. lia.
  - simpl in Hwf. apply andb_prop in Hwf. destruct Hwf as [Hl Hr].
    apply (reads_binary op).
    + apply (IHl Hl). destruct op; simpl; lia.
    + apply (IHr Hr). destruct op; simpl; lia.
Qed.

End FormulaParsing.

(** ** The tokenizer on written formulas *)

Module TokenizerFacts.
Import tokenizer Written.


Lemma boundary_cases rest :
  boundary rest = true ->
  rest = [] \/ exists c cs, rest = c :: cs /\ In c ["+"; "-"; "*"; "/"; ")"]%char.
Proof.
  destruct rest as [| c cs]; [auto |]. intros H. right. exists c, cs. split; [reflexivity |].
  simpl in H. simpl.
  repeat match type of H with
  | (Ascii.eqb c ?x || _)%bool = true =>
      destruct (Ascii.eqb_spec c x) as [-> | _]; [auto 10 | simpl in H]
  end.
  discriminate H.
Qed.

Lemma scan_default_digit c cs :
  is_digit c = true -> scan Default (c :: cs) = scan (InInt [c]) cs.
Proof. intros H. simpl. rewrite H. reflexivity. Qed.

Lemma scan_int_digit acc c cs :
  is_digit c = true -> scan (InInt acc) (c :: cs) = scan (InInt (c :: acc)) cs.
Proof. intros H. simpl. rewrite H. reflexivity. Qed.

Lemma scan_frac_digit i acc c cs :
  is_digit c = true -> scan (InFrac i acc) (c :: cs) = scan (InFrac i (c :: acc)) cs.
Proof. intros H. simpl. rewrite H. reflexivity. Qed.

Lemma scan_int_point acc cs : scan (InInt acc) ("."%char :: cs) = scan (InFrac (rev acc) []) cs.
Proof. reflexivity. Qed.

Lemma scan_default_point c cs :
  is_digit c = true -> scan Default ("."%char :: c :: cs) = scan (InFrac [] []) (c :: cs).
Proof.
  intros H. 
  assert (Hc : c <> "."%char) by (intros ->; discriminate H).
  simpl. rewrite H. 
  destruct c as [[] [] [] [] [] [] [] []]; try reflexivity; try discriminate H; congruence.
Qed.

Lemma scan_int_digits ds : forall acc rest,
  forallb is_digit ds = true ->
  scan (InInt acc) (ds ++ rest) = scan (InInt (rev ds ++ acc)) rest.
Proof.
  induction ds as [| d ds IH]; intros acc rest H; [reflexivity |].
  simpl in H. apply andb_prop in H. destruct H as [Hd Hds].
  simpl app. rewrite scan_int_digit by assumption. rewrite IH by assumption.
  simpl rev. rewrite <- app_assoc. reflexivity.
Qed.

Lemma scan_frac_digits ds : forall i acc rest,
  forallb is_digit ds = true ->
  scan (InFrac i acc) (ds ++ rest) = scan (InFrac i (rev ds ++ acc)) rest.
Proof.
  induction ds as [| d ds IH]; intros i acc rest H; [reflexivity |].
  simpl in H. apply andb_prop in H. destruct H as [Hd Hds].
  simpl app. rewrite scan_frac_digit by assumption. rewrite IH by assumption.
  simpl rev. rewrite <- app_assoc. reflexivity.
Qed.

Lemma scan_int_end acc rest :
  boundary rest = true ->
  scan (InInt acc) rest = cons_token (int_token (rev acc)) (scan Default rest).
Proof.
  intros H. destruct (boundary_cases rest H) as [-> | (c & cs & -> & Hc)]; [reflexivity |].
  simpl in Hc. destruct Hc as [<- | [<- | [<- | [<- | [<- | []]]]]]; reflexivity.
Qed.

Lemma scan_frac_end i acc rest :
  boundary rest = true ->
  scan (InFrac i acc) rest = cons_token (float_token i (rev acc)) (scan Default rest).
Proof.
  intros H. destruct (boundary_cases rest H) as [-> | (c & cs & -> & Hc)]; [reflexivity |].
  simpl in Hc. destruct Hc as [<- | [<- | [<- | [<- | [<- | []]]]]]; reflexivity.
Qed.

(** An integer literal of a well-formed formula is one [NUMBER]. *)
Lemma scan_integer ds rest :
  Formula.wf_literal (Formula.Integer ds) = true -> boundary rest = true ->
  scan Default (ds ++ rest)
  = cons_token (NUMBER (Formula.literal_constant (Formula.Integer ds))) (scan Default rest).
Proof.
  intros Hwf Hb. simpl in Hwf. apply andb_prop in Hwf. destruct Hwf as [Hdigits Hzero].
  destruct ds as [| d ds]; [discriminate Hzero |].
  simpl in Hdigits. apply andb_prop in Hdigits. destruct Hdigits as [Hd Hds].
  simpl app. rewrite scan_default_digit, scan_int_digits, scan_int_end by assumption.
  rewrite rev_app_distr, rev_involutive. simpl app.
  f_equal. unfold int_token. simpl Formula.literal_constant.
  destruct ds as [| d' ds]; [reflexivity |].
  unfold Formula.is_zero_digit in Hzero.
  destruct (code d =? 48)%N; simpl in Hzero |- *; [rewrite Hzero |]; reflexivity.
Qed.

(** So is a literal with a decimal point. *)
Lemma scan_decimal i f rest :
  Formula.wf_literal (Formula.Decimal i f) = true -> boundary rest = true ->
  scan Default (i ++ "."%char :: f ++ rest)
  = cons_token (NUMBER (Formula.literal_constant (Formula.Decimal i f))) (scan Default rest).
Proof.
  intros Hwf Hb. simpl in Hwf.
  apply andb_prop in Hwf. destruct Hwf as [Hdigits Hne].
  apply andb_prop in Hdigits. destruct Hdigits as [Hi Hf].
  destruct i as [| d i].
  - destruct f as [| d f]; [discriminate Hne |].
    simpl in Hf. apply andb_prop in Hf. destruct Hf as [Hd Hf].
    simpl app. rewrite scan_default_point, scan_frac_digit by assumption.
    rewrite scan_frac_digits, scan_frac_end by assumption.
    rewrite rev_app_distr, rev_involutive. reflexivity.
  - simpl in Hi. apply andb_prop in Hi. destruct Hi as [Hd Hi].
    simpl app. rewrite scan_default_digit, scan_int_digits by assumption.
    rewrite scan_int_point, scan_frac_digits, scan_frac_end by assumption.
    rewrite rev_app_distr, rev_involutive, app_nil_r, rev_involutive. reflexivity.
Qed.


Lemma operand_start_app cs rest : operand_start cs = true -> operand_start (cs ++ rest) = true.
Proof. destruct cs; [discriminate | auto]. Qed.

Lemma scan_star cs :
  operand_start cs = true -> scan Default ("*"%char :: cs) = cons_token STAR (scan Default cs).
Proof.
  destruct cs as [| c cs]; [discriminate |]. intros H.
  destruct c as [[] [] [] [] [] [] [] []]; try discriminate H; reflexivity.
Qed.

Lemma scan_slash cs :
  operand_start cs = true -> scan Default ("/"%char :: cs) = cons_token SLASH (scan Default cs).
Proof.
  destruct cs as [| c cs]; [discriminate |]. intros H.
  destruct c as [[] [] [] [] [] [] [] []]; try discriminate H; reflexivity.
Qed.


Lemma chars_append a b : chars (String.append a b) = chars a ++ chars b.
Proof.
  unfold chars. induction a as [| c a IH]; [reflexivity |].
  simpl. destruct (N_of_ascii c =? 94)%N; simpl; rewrite IH; reflexivity.
Qed.

Lemma chars_digits ds : forallb is_digit ds = true -> chars (string_of_list_ascii ds) = ds.
Proof.
  unfold chars. induction ds as [| d ds IH]; [reflexivity |]. intros H.
  simpl in H. apply andb_prop in H. destruct H as [Hd Hds].
  simpl. assert (Hc : (N_of_ascii d =? 94)%N = false).
  { unfold is_digit, code in Hd. apply andb_prop in Hd. destruct Hd as [_ Hle].
    apply N.leb_le in Hle. apply N.eqb_neq. lia. }
  rewrite Hc. simpl. rewrite IH by assumption. reflexivity.
Qed.

End TokenizerFacts.

(** ** Written formulas parse to their trees *)

Module FormulaScanning.
Import tokenizer Written TokenizerFacts.

Lemma render_unfold p f :
  Formula.render p f =
  if (Formula.level f <? p)%nat
  then String.append "(" (String.append (Formula.render (Formula.level f) f) ")")
  else Formula.render (Formula.level f) f.
Proof. destruct f as [l | g | g | [] l r]; reflexivity. Qed.

Lemma render_own_level f :
  Formula.render (Formula.level f) f =
  match f with
  | Formula.Lit l => Formula.literal_string l
  | Formula.Neg g => String.append "-" (Formula.render 3 g)
  | Formula.Paren g => String.append "(" (String.append (Formula.render 0 g) ")")
  | Formula.Bin op l r =>
      String.append (Formula.render (fst (Formula.operand_levels op)) l)
        (String.append (Formula.operator_string op)
           (Formula.render (snd (Formula.operand_levels op)) r))
  end.
Proof. destruct f as [l | g | g | [] l r]; reflexivity. Qed.


Lemma cons_token_app t ts r :
  cons_token t (option_map (app ts) r) = option_map (app (t :: ts)) r.
Proof. destruct r; reflexivity. Qed.

Lemma option_map_app ts1 ts2 (r : option (list token)) :
  option_map (app ts1) (option_map (app ts2) r) = option_map (app (ts1 ++ ts2)) r.
Proof. destruct r; simpl; [rewrite app_assoc |]; reflexivity. Qed.

Lemma scans_parenthesised cs ts :
  scans cs ts -> scans ("("%char :: cs ++ [")"%char]) (LPAR :: ts ++ [RPAR]).
Proof.
  intros [H _]. split; [| reflexivity]. intros rest Hb.
  simpl app. rewrite <- app_assoc. simpl app.
  change (scan Default ("("%char :: cs ++ ")"%char :: rest))
    with (cons_token LPAR (scan Default (cs ++ ")"%char :: rest))).
  rewrite H by reflexivity.
  change (scan Default (")"%char :: rest)) with (cons_token RPAR (scan Default rest)).
  destruct (scan Default rest); simpl; [rewrite <- app_assoc |]; reflexivity.
Qed.

Lemma scans_literal l :
  Formula.wf_literal l = true ->
  scans (chars (Formula.literal_string l)) [NUMBER (Formula.literal_constant l)].
Proof.
  intros Hwf. destruct l as [ds | i f].
  - assert (Hd : forallb is_digit ds = true).
    { simpl in Hwf. apply andb_prop in Hwf. apply Hwf. }
    simpl Formula.literal_string. rewrite chars_digits by assumption. split.
    + intros rest Hb. rewrite scan_integer by assumption.
      destruct (scan Default rest); reflexivity.
    + simpl in Hwf. apply andb_prop in Hwf. destruct Hwf as [_ Hne].
      destruct ds as [| d ds]; [discriminate Hne |].
      simpl in Hd. apply andb_prop in Hd. destruct Hd as [Hd _].
      simpl. rewrite Hd. reflexivity.
  - assert (Hd : forallb is_digit i = true /\ forallb is_digit f = true).
    { simpl in Hwf. apply andb_prop in Hwf. destruct Hwf as [Hwf _].
      apply andb_prop in Hwf. exact Hwf. }
    destruct Hd as [Hi Hf].
    simpl Formula.literal_string.
    rewrite chars_append, chars_digits by assumption.
    change (chars (String "." (string_of_list_ascii f)))
      with ("."%char :: chars (string_of_list_ascii f)).
    rewrite chars_digits by assumption. split.
    + intros rest Hb. rewrite <- app_assoc. simpl app.
      rewrite scan_decimal by assumption.
      destruct (scan Default rest); reflexivity.
    + destruct i as [| d i]; [reflexivity |].
      simpl in Hi. apply andb_prop in Hi. destruct Hi as [Hd _].
      simpl. rewrite Hd. reflexivity.
Qed.

Lemma scans_negation cs ts : scans cs ts -> scans ("-"%char :: cs) (MINUS :: ts).
Proof.
  intros [H _]. split; [| reflexivity]. intros rest Hb. simpl app.
  change (scan Default ("-"%char :: cs ++ rest))
    with (cons_token MINUS (scan Default (cs ++ rest))).
  rewrite H by assumption. apply cons_token_app.
Qed.

Lemma boundary_operator op cs :
  boundary (chars (Formula.operator_string op) ++ cs) = true.
Proof. destruct op; reflexivity. Qed.

Lemma scan_operator op cs :
  operand_start cs = true ->
  scan Default (chars (Formula.operator_string op) ++ cs)
  = cons_token (operator_token op) (scan Default cs).
Proof.
  intros H. destruct op; try reflexivity.
  - apply scan_star, H.
  - apply scan_slash, H.
Qed.

Lemma scans_binary op cl tl cr tr :
  scans cl tl -> scans cr tr ->
  scans (cl ++ chars (Formula.operator_string op) ++ cr) (tl ++ operator_token op :: tr).
Proof.
  intros [Hl Hsl] [Hr Hsr]. split; [| apply operand_start_app, Hsl]. intros rest Hb.
  rewrite <- !app_assoc.
  rewrite Hl by apply boundary_operator.
  rewrite scan_operator by (apply operand_start_app, Hsr).
  rewrite Hr by assumption.
  rewrite cons_token_app, option_map_app. reflexivity.
Qed.

Lemma scans_any_level f :
  scans (chars (Formula.render (Formula.level f) f)) (tokens (Formula.level f) f) ->
  forall p, scans (chars (Formula.render p f)) (tokens p f).
Proof.
  intros Hown p. rewrite render_unfold, FormulaParsing.tokens_unfold.
  destruct (Formula.level f <? p)%nat; [| exact Hown].
  rewrite chars_append, chars_append. apply (scans_parenthesised _ _ Hown).
Qed.

(** The tokenizer turns a written formula into its tokens. *)
Lemma scans_formula f :
  Formula.wf f = true -> forall p, scans (chars (Formula.render p f)) (tokens p f).
Proof.
  induction f as [l | g IH | g IH | op l IHl r IHr]; intros Hwf;
    apply scans_any_level; rewrite render_own_level, FormulaParsing.tokens_own_level.
  - apply scans_literal, Hwf.
  - apply (scans_negation _ _ (IH Hwf 3%nat)).
  - rewrite chars_append, chars_append. apply (scans_parenthesised _ _ (IH Hwf 0%nat)).
  - simpl in Hwf. apply andb_prop in Hwf. destruct Hwf as [Hl Hr].
    rewrite chars_append, chars_append. apply scans_binary; [apply IHl | apply IHr]; assumption.
Qed.

End FormulaScanning.

Module FormulaFacts.
Import tokenizer parser Written TokenizerFacts.

Lemma tokenize_operand s :
  operand_start (list_ascii_of_string s) = true ->
  tokenize s = scan Default (list_ascii_of_string s).
Proof.
  unfold tokenize. destruct (list_ascii_of_string s) as [| c cs]; [reflexivity |]. intros H.
  destruct c as [[] [] [] [] [] [] [] []]; try discriminate H; reflexivity.
Qed.

Lemma tokenize_written f :
  Formula.wf f = true ->
  tokenize (ScientificCalculator.replace_caret (Formula.write f)) = Some (tokens 0 f).
Proof.
  intros Hwf. destruct (FormulaScanning.scans_formula f Hwf 0%nat) as [Hscan Hstart].
  rewrite tokenize_operand by exact Hstart.
  fold (chars (Formula.write f)). unfold Formula.write.
  rewrite <- (app_nil_r (chars (Formula.render 0 f))).
  rewrite Hscan by reflexivity. simpl. rewrite app_nil_r. reflexivity.
Qed.

(** No [*] of a written formula stands where an element begins. *)
Lemma starred_written f : forall p b rest,
  starred b (tokens p f ++ rest) = starred false rest.
Proof.
  assert (Hwrap : forall ts,
            (forall b rest, starred b (ts ++ rest) = starred false rest) ->
            forall b rest, starred b ((LPAR :: ts ++ [RPAR]) ++ rest) = starred false rest).
  { intros ts H b rest. simpl. rewrite <- app_assoc, H. simpl.
    rewrite andb_false_r. reflexivity. }
  induction f as [l | g IH | g IH | op l IHl r IHr]; intros p.
  all: rewrite FormulaParsing.tokens_unfold;
    destruct (Formula.level _ <? p)%nat; [apply Hwrap |];
    rewrite FormulaParsing.tokens_own_level.
  all: try (intros b rest; simpl; rewrite andb_false_r; simpl; try apply IH; reflexivity).
  - apply Hwrap, IH.
  - apply Hwrap, IH.
  - intros b rest. rewrite <- app_assoc, IHl. simpl.
    destruct op; simpl; apply IHr.
  - intros b rest. rewrite <- app_assoc, IHl. simpl.
    destruct op; simpl; apply IHr.
Qed.

Lemma cost_bound f : forall p, (cost p f <= 20 * List.length (tokens p f))%nat.
Proof.
  induction f as [l | g IH | g IH | op l IHl r IHr]; intros p;
    rewrite FormulaParsing.cost_unfold, FormulaParsing.tokens_unfold;
    destruct (Formula.level _ <? p)%nat;
    rewrite FormulaParsing.tokens_own_level; simpl natural;
    repeat (rewrite length_app || cbn [List.length app]);
    try pose proof (IH 0%nat); try pose proof (IH 3%nat);
    try pose proof (IHl (fst (Formula.operand_levels op)));
    try pose proof (IHr (snd (Formula.operand_levels op)));
    lia.
Qed.

Lemma repeats_keyword_tree f : repeats_keyword (Formula.tree f) = false.
Proof.
  induction f as [l | g IH | g IH | op l IHl r IHr]; simpl; try assumption.
  - reflexivity.
  - rewrite IHl, IHr. reflexivity.
Qed.

(** A well-formed formula, written down and with its carets translated,
    parses to its tree. *)
Lemma parse_written f :
  Formula.wf f = true ->
  ast_parse (ScientificCalculator.replace_caret (Formula.write f)) = Some (OK (Formula.tree f)).
Proof.
  intros Hwf. unfold ast_parse. rewrite tokenize_written by assumption.
  unfold eval_input.
  rewrite <- (app_nil_r (tokens 0 f)) at 1. rewrite starred_written. simpl starred.
  cbv iota.
  destruct (FormulaParsing.reads_formula f Hwf 0%nat ltac:(lia) [] (fuel_for (tokens 0 f)) 0%nat
              eq_refl) as (n' & _ & Hp).
  { unfold fuel_for. pose proof (cost_bound f 0). lia. }
  rewrite app_nil_r in Hp. simpl parse_at in Hp. simpl result_at in Hp.
  unfold expressions. rewrite Hp. cbv beta iota delta [pbind].
  rewrite repeats_keyword_tree. reflexivity.
Qed.

(** On integers the evaluator computes exactly. *)
Lemma eval_integer_formula (P : Platform) (deg : bool) f : forall z,
  Formula.integer_value f = Some z -> SafeEval._eval P deg (Formula.tree f) = OK (VInt z).
Proof.
  induction f as [l | g IH | g IH | op l IHl r IHr]; intros z H.
  - destruct l as [ds | i fr]; [| discriminate H]. inversion H. reflexivity.
  - simpl in H. destruct (Formula.integer_value g) as [a |]; [| discriminate H].
    inversion H. simpl. rewrite (IH a eq_refl). reflexivity.
  - apply IH, H.
  - simpl in H.
    destruct (Formula.integer_value l) as [a |]; [| discriminate H].
    destruct (Formula.integer_value r) as [b |]; [| discriminate H].
    change (SafeEval._eval P deg (Formula.tree (Formula.Bin op l r)))
      with (f <- SafeEval.allowed_ops_getitem (ast.binary (Formula.operator_node op)) ;;
            x <- SafeEval._eval P deg (Formula.tree l) ;;
            y <- SafeEval._eval P deg (Formula.tree r) ;;
            PyNum.call_operator P f [x; y]).
    rewrite (IHl a eq_refl), (IHr b eq_refl).
    destruct op; try discriminate H; try (inversion H; reflexivity).
    destruct (b <? 0) eqn:Hb; [discriminate H |]. inversion H.
    simpl. unfold PyNum.pow, PyNum.arith, PyNum.int_pow. rewrite Hb. reflexivity.
Qed.

End FormulaFacts.

(** *** C2: precedence and associativity *)




(** *** C8: unary minus and power *)

(** C8, counterexample: [-2^2] is read as [-(2^2)] and evaluates to -4, not
    to 4. *)
Lemma minus_two_squared_is_minus_four :
  ScientificCalculator.computed Sample.platform (ScientificCalculator.pending true "-2^2")
  = Some (OK (VInt (-4)))
  /\ ast_parse "-2**2"
     = Some (OK (ast.UnaryOp ast.USub
                   (ast.BinOp (ast.Constant (ast.CInt 2)) ast.Pow (ast.Constant (ast.CInt 2))))).
Proof. split; reflexivity. Qed.

(** C8, as amended: the power operator binds more tightly than a unary minus
    on its left.  For every atom [x] and every factor [y], [-x^y] is parsed
    as [-(x^y)]; on integers with [y >= 0] it evaluates to [-(x^y)], so
    [-2^2] is -4, and [(-2)^2] is 4. *)
Theorem power_binds_tighter_than_minus (P : Platform) (deg : bool) :
  (forall x y, Formula.wf x = true -> Formula.wf y = true ->
     ast_parse
       (ScientificCalculator.replace_caret
          (String.append "-" (String.append (Formula.render 5 x)
                                (String.append "^" (Formula.render 3 y)))))
     = Some (OK (ast.UnaryOp ast.USub
                   (ast.BinOp (Formula.tree x) ast.Pow (Formula.tree y)))))
  /\ (forall x y a b, Formula.wf x = true -> Formula.wf y = true ->
        Formula.integer_value x = Some a -> Formula.integer_value y = Some b -> 0 <= b ->
        ScientificCalculator.computed P
          (ScientificCalculator.pending deg
             (String.append "-" (String.append (Formula.render 5 x)
                                   (String.append "^" (Formula.render 3 y)))))
        = Some (OK (VInt (- a ^ b))))
  /\ ScientificCalculator.computed P (ScientificCalculator.pending deg "-2^2")
     = Some (OK (VInt (-4)))
  /\ ScientificCalculator.computed P (ScientificCalculator.pending deg "(-2)^2")
     = Some (OK (VInt 4)).
Proof.
  assert (Hparse : forall x y, Formula.wf x = true -> Formula.wf y = true ->
            ast_parse
              (ScientificCalculator.replace_caret
                 (String.append "-" (String.append (Formula.render 5 x)
                                       (String.append "^" (Formula.render 3 y)))))
            = Some (OK (ast.UnaryOp ast.USub
                          (ast.BinOp (Formula.tree x) ast.Pow (Formula.tree y))))).
  { intros x y Hx Hy.
    apply (FormulaFacts.parse_written (Formula.Neg (Formula.Bin Formula.Power x y))).
    simpl. rewrite Hx, Hy. reflexivity. }
  repeat match goal with |- _ /\ _ => split end.
  - exact Hparse.
  - intros x y a b Hx Hy Ha Hb Hpos.
    unfold ScientificCalculator.computed, SafeEval.eval_expr, ScientificCalculator.pending.
    cbn [ScientificCalculator.expression]. rewrite Hparse by assumption.
    f_equal.
    apply (FormulaFacts.eval_integer_formula P _ (Formula.Neg (Formula.Bin Formula.Power x y))).
    simpl. rewrite Ha, Hb.
    destruct (b <? 0) eqn:Hneg; [apply Z.ltb_lt in Hneg; lia | reflexivity].
  - destruct deg; reflexivity.
  - destruct deg; reflexivity.
Qed.

Lemma power_binds_tighter_than_minus_witness :
  ast_parse
    (ScientificCalculator.replace_caret
       (String.append "-"
          (String.append (Formula.render 5 (Formula.Lit (Formula.Integer ["3"%char])))
             (String.append "^"
                (Formula.render 3 (Formula.Neg (Formula.Lit (Formula.Decimal [] ["5"%char]))))))))
  = Some (OK (ast.UnaryOp ast.USub
                (ast.BinOp (Formula.tree (Formula.Lit (Formula.Integer ["3"%char]))) ast.Pow
                   (Formula.tree (Formula.Neg (Formula.Lit (Formula.Decimal [] ["5"%char])))))))
  /\ ScientificCalculator.computed Sample.platform
       (ScientificCalculator.pending false
          (String.append "-"
             (String.append (Formula.render 5 (Formula.Lit (Formula.Integer ["3"%char])))
                (String.append "^"
                   (Formula.render 3 (Formula.Lit (Formula.Integer ["2"%char])))))))
     = Some (OK (VInt (- 3 ^ 2))).
Proof.
  pose proof (power_binds_tighter_than_minus Sample.platform false) as (Hparse & Hvalue & _).
  split.
  - apply Hparse; reflexivity.
  - apply Hvalue; try reflexivity. lia.
Defined.

(** ** The shell around the evaluator *)



(** ** The window and its handlers *)

Module AppFacts.

(** A property of the start that every handler keeps holds after any run. *)
Lemma run_invariant (P : Platform) (Inv : App.state -> Prop) :
  (forall w ev w', Inv w -> App.handle P w ev = Some w' -> Inv w') ->
  forall evs w w', Inv w -> App.run P w evs = Some w' -> Inv w'.
Proof.
  intros Hstep evs. induction evs as [| ev evs IH]; intros w w' Hw Hrun; simpl in Hrun.
  - inversion Hrun; subst; exact Hw.
  - destruct (App.handle P w ev) as [w1 |] eqn:Hev; [| discriminate Hrun].
    eapply IH; [eapply Hstep; eassumption | exact Hrun].
Qed.

Lemma evaluate_cases (P : Platform) (w w' : App.state) :
  App.evaluate P w = Some w' ->
  App.memory w' = App.memory w /\ App.toggle_btn w' = App.toggle_btn w
  /\ App.use_degrees w' = App.use_degrees w
  /\ ((exists v, ScientificCalculator.computed P (App.shell w) = Some (OK v)
                 /\ App.entry w' = PyNum.str P v /\ App.expression w' = PyNum.str P v)
      \/ (exists e, ScientificCalculator.computed P (App.shell w) = Some (Raise e)
                    /\ App.entry w' = "Error" /\ App.expression w' = "")).
Proof.
  unfold App.evaluate, ScientificCalculator.evaluate. intros H.
  destruct (ScientificCalculator.computed P (App.shell w)) as [[v | e] |];
    inversion H; subst w'; cbn; repeat split; eauto.
Qed.

Lemma memory_store_cases (w w' : App.state) :
  App.memory_store w = Some w' ->
  App.shell w' = App.shell w /\ App.toggle_btn w' = App.toggle_btn w
  /\ (App.memory w' = App.memory w \/ exists x, App.memory w' = VFloat x).
Proof.
  unfold App.memory_store. intros H.
  destruct (PyFloat.from_string (App.entry w)) as [[x | e] |]; inversion H; subst w'; cbn; eauto.
Qed.

(** Each branch of [on_button_click]. *)
Lemma on_button_click_cases (P : Platform) (w : App.state) (text : string) :
  App.on_button_click P w text = Some (App.clear w)
  \/ App.on_button_click P w text = Some (App.delete_last w)
  \/ App.on_button_click P w text = App.evaluate P w
  \/ App.on_button_click P w text = App.memory_store w
  \/ App.on_button_click P w text = Some (App.memory_clear w)
  \/ exists s, App.on_button_click P w text = Some (App.add_to_expression w s).
Proof.
  unfold App.on_button_click, App.memory_recall.
  repeat match goal with
         | |- context [if ?b then _ else _] => destruct b
         end; eauto 10.
Qed.

(** What a handler does to the display: it shows the pending expression, or
    [Error] with nothing pending, or it leaves both alone. *)
Lemma handle_display (P : Platform) (w w' : App.state) (ev : App.event) :
  App.handle P w ev = Some w' ->
  App.shows_expression w'
  \/ (App.entry w' = App.entry w /\ App.expression w' = App.expression w).
Proof.
  assert (Hev : forall w', App.evaluate P w = Some w' -> App.shows_expression w').
  { intros w1 H.
    destruct (evaluate_cases P w w1 H) as (_ & _ & _ & [(v & _ & He & Hx) | (e & _ & He & Hx)]).
    - left. rewrite He, Hx. reflexivity.
    - right; split; assumption. }
  assert (Hst : forall w', App.memory_store w = Some w' ->
                  App.entry w' = App.entry w /\ App.expression w' = App.expression w).
  { intros w1 H. destruct (memory_store_cases w w1 H) as (Hs & _).
    unfold App.entry, App.expression. rewrite Hs. split; reflexivity. }
  destruct ev as [char | | | | text |]; simpl; intros H.
  - inversion H; subst w'. unfold App.key_input.
    destruct (PyStr.contains char _); [left; left; reflexivity | right; split; reflexivity].
  - left. apply Hev, H.
  - inversion H; subst w'. left; left; reflexivity.
  - inversion H; subst w'. left; left; reflexivity.
  - destruct (on_button_click_cases P w text) as [E | [E | [E | [E | [E | (s & E)]]]]];
      rewrite E in H.
    + inversion H; subst w'. left; left; reflexivity.
    + inversion H; subst w'. left; left; reflexivity.
    + left. apply Hev, H.
    + right. apply Hst, H.
    + inversion H; subst w'. right; split; reflexivity.
    + inversion H; subst w'. left; left; reflexivity.
  - inversion H; subst w'. right; split; reflexivity.
Qed.

End AppFacts.

(** As long as the text of the entry is changed by the handlers of the class
    only, it shows the pending expression, or it reads [Error] and nothing
    is pending: that holds at the start and every key, button and toggle
    keeps it. *)
Theorem display_shows_expression_or_error (P : Platform) (evs : list App.event)
    (w w' : App.state) :
  App.shows_expression w -> App.run P w evs = Some w' -> App.shows_expression w'.
Proof.
  apply AppFacts.run_invariant. clear. intros w ev w' Hw Hev.
  destruct (AppFacts.handle_display P w w' ev Hev) as [H | (He & Hx)]; [exact H |].
  unfold App.shows_expression. rewrite He, Hx. exact Hw.
Qed.

Lemma display_shows_expression_or_error_witness :
  exists w',
    App.run Sample.platform App.init
      (App.keys "2+" ++ [App.Return; App.Toggle; App.Button "7"; App.Button "M+";
                         App.Escape; App.Button "sin"; App.BackSpace; App.Button "="]) = Some w'
    /\ App.shows_expression w'.
Proof.
  eexists. split; [vm_compute; reflexivity |].
  eapply (display_shows_expression_or_error Sample.platform
            (App.keys "2+" ++ [App.Return; App.Toggle; App.Button "7"; App.Button "M+";
                               App.Escape; App.Button "sin"; App.BackSpace; App.Button "="]) App.init).
  - left; reflexivity.
  - vm_compute; reflexivity.
Defined.


Lemma handle_mode (P : Platform) (w w' : App.state) (ev : App.event) :
  App.handle P w ev = Some w' ->
  match ev with
  | App.Toggle => w' = App.toggle_deg_rad w
  | _ => App.use_degrees w' = App.use_degrees w /\ App.toggle_btn w' = App.toggle_btn w
  end.
Proof.
  assert (Hev : forall w', App.evaluate P w = Some w' ->
                  App.use_degrees w' = App.use_degrees w
                  /\ App.toggle_btn w' = App.toggle_btn w).
  { intros w1 H. destruct (AppFacts.evaluate_cases P w w1 H) as (_ & Hb & Hd & _). auto. }
  destruct ev as [char | | | | text |]; simpl; intros H.
  - inversion H; subst w'. unfold App.key_input.
    destruct (PyStr.contains char _); split; reflexivity.
  - apply Hev, H.
  - inversion H; subst w'. split; reflexivity.
  - inversion H; subst w'. split; reflexivity.
  - destruct (AppFacts.on_button_click_cases P w text)
      as [E | [E | [E | [E | [E | (s & E)]]]]]; rewrite E in H.
    + inversion H; subst w'. split; reflexivity.
    + inversion H; subst w'. split; reflexivity.
    + apply Hev, H.
    + destruct (AppFacts.memory_store_cases w w' H) as (Hs & Hb & _).
      unfold App.use_degrees. rewrite Hs. auto.
    + inversion H; subst w'. split; reflexivity.
    + inversion H; subst w'. split; reflexivity.
  - inversion H; subst w'. reflexivity.
Qed.

(** Only the DEG/RAD button changes the mode: after any run from the start
    the calculator is in degree mode exactly when the button has been
    pressed an even number of times, and the button reads [DEG] in degree
    mode and [RAD] in radian mode. *)
Theorem mode_button_names_the_mode (P : Platform) (evs : list App.event) (w' : App.state) :
  App.run P App.init evs = Some w' ->
  App.use_degrees w' = Nat.even (App.toggles evs)
  /\ App.toggle_btn w' = (if Nat.even (App.toggles evs) then "DEG" else "RAD").
Proof.
  assert (Hgen : forall evs w w',
            App.toggle_btn w = (if App.use_degrees w then "DEG" else "RAD") ->
            App.run P w evs = Some w' ->
            App.use_degrees w'
            = (if Nat.even (App.toggles evs) then App.use_degrees w
               else negb (App.use_degrees w))
            /\ App.toggle_btn w' = (if App.use_degrees w' then "DEG" else "RAD")).
  { clear. intros evs. induction evs as [| ev evs IH]; intros w w' Hw Hrun; simpl in Hrun.
    - inversion Hrun; subst w'. split; [reflexivity | exact Hw].
    - destruct (App.handle P w ev) as [w1 |] eqn:Hev; [| discriminate Hrun].
      pose proof (handle_mode P w w1 ev Hev) as Hm.
      assert (Hw1 : App.toggle_btn w1 = (if App.use_degrees w1 then "DEG" else "RAD")).
      { destruct ev; try (destruct Hm as (Hd & Hb); rewrite Hd, Hb; exact Hw).
        subst w1. reflexivity. }
      destruct (IH w1 w' Hw1 Hrun) as (Hd' & Hb'). split; [| exact Hb'].
      rewrite Hd'.
      destruct ev; try (destruct Hm as (Hd & _); rewrite Hd; reflexivity).
      subst w1. unfold App.toggles. cbn [filter List.length]. fold (App.toggles evs).
      rewrite Nat.even_succ, <- Nat.negb_even.
      change (App.use_degrees (App.toggle_deg_rad w)) with (negb (App.use_degrees w)).
      destruct (Nat.even (App.toggles evs)); [reflexivity | apply negb_involutive]. }
  intros Hrun. destruct (Hgen evs App.init w' eq_refl Hrun) as (Hd & Hb).
  change (App.use_degrees App.init) with true in Hd.
  assert (Hd' : App.use_degrees w' = Nat.even (App.toggles evs))
    by (rewrite Hd; destruct (Nat.even (App.toggles evs)); reflexivity).
  split; [exact Hd' |]. rewrite Hb, Hd'. reflexivity.
Qed.

Lemma mode_button_names_the_mode_witness :
  exists w',
    App.run Sample.platform App.init
      [App.Toggle; App.Button "2"; App.Return; App.Toggle; App.Button "MC"; App.Toggle]
    = Some w'
    /\ App.use_degrees w' = false /\ App.toggle_btn w' = "RAD".
Proof.
  eexists. split; [vm_compute; reflexivity |].
  apply (mode_button_names_the_mode Sample.platform
           [App.Toggle; App.Button "2"; App.Return; App.Toggle; App.Button "MC"; App.Toggle]).
  vm_compute; reflexivity.
Defined.

(** *** The keyboard *)

(** [key_input] on a single character: the eighteen characters of the keypad
    are appended to the pending expression and shown; any other character,
    a letter for one, changes nothing, so that no name can be typed.  A key
    without a character (the empty string is a substring of every string)
    shows the pending expression again, which wipes an [Error] off the
    display. *)
Theorem keyboard_takes_keypad_characters_only (w : App.state) :
  (forall c : ascii,
     App.key_input w (String c "")
     = if existsb (Ascii.eqb c) (list_ascii_of_string "0123456789+-*/().^")
       then App.add_to_expression w (String c "")
       else w)
  /\ (forall c : ascii, tokenizer.is_name_start c = true -> App.key_input w (String c "") = w)
  /\ App.expression (App.key_input w "") = App.expression w
  /\ App.entry (App.key_input w "") = App.expression w.
Proof.
  split; [| split; [| split]].
  - intros c. unfold App.key_input.
    destruct c as [[] [] [] [] [] [] [] []]; reflexivity.
  - intros c Hc. unfold App.key_input.
    destruct c as [[] [] [] [] [] [] [] []]; try discriminate Hc; reflexivity.
  - unfold App.key_input, App.expression. simpl.
    induction (ScientificCalculator.expression (App.shell w)) as [| a s IH];
      [reflexivity | simpl; f_equal; exact IH].
  - unfold App.key_input, App.entry, App.expression. simpl.
    induction (ScientificCalculator.expression (App.shell w)) as [| a s IH];
      [reflexivity | simpl; f_equal; exact IH].
Qed.

Lemma keyboard_takes_keypad_characters_only_witness :
  App.key_input (App.add_to_expression App.init "2+") "x" = App.add_to_expression App.init "2+".
Proof.
  apply (proj1 (proj2 (keyboard_takes_keypad_characters_only
                         (App.add_to_expression App.init "2+"))) "x"%char).
  reflexivity.
Defined.

(** *** Deleting *)

Lemma drop_last_snoc (s : string) (c : ascii) :
  PyStr.drop_last (String.append s (String c "")) = s.
Proof.
  induction s as [| a s IH]; [reflexivity |].
  simpl String.append. simpl PyStr.drop_last. rewrite IH.
  destruct s; reflexivity.
Qed.

Lemma append_snoc (s t : string) (c : ascii) :
  String.append s (String c t) = String.append (String.append s (String c "")) t.
Proof. induction s as [| a s IH]; simpl; [reflexivity | rewrite IH; reflexivity]. Qed.

Lemma drop_last_append (t : string) : forall s : string,
  Nat.iter (String.length t) PyStr.drop_last (String.append s t) = s.
Proof.
  induction t as [| c t IH]; intros s.
  - simpl. induction s as [| a s IHs]; simpl; [reflexivity | rewrite IHs; reflexivity].
  - simpl String.length. rewrite append_snoc.
    change (Nat.iter (S (String.length t)) PyStr.drop_last
              (String.append (String.append s (String c "")) t))
      with (PyStr.drop_last
              (Nat.iter (String.length t) PyStr.drop_last
                 (String.append (String.append s (String c "")) t))).
    rewrite IH. apply drop_last_snoc.
Qed.

Lemma drop_last_length (s : string) :
  String.length (PyStr.drop_last s) = Nat.pred (String.length s).
Proof.
  induction s as [| a s IH]; [reflexivity |].
  destruct s as [| b s]; [reflexivity |].
  change (PyStr.drop_last (String a (String b s))) with (String a (PyStr.drop_last (String b s))).
  simpl String.length in *. rewrite IH. reflexivity.
Qed.

Lemma iter_delete_last (n : nat) (w : App.state) :
  App.expression (Nat.iter n App.delete_last w)
  = Nat.iter n PyStr.drop_last (App.expression w)
  /\ (n <> 0%nat ->
      App.entry (Nat.iter n App.delete_last w)
      = Nat.iter n PyStr.drop_last (App.expression w)).
Proof.
  induction n as [| n [IHx IHe]]; [split; [reflexivity | intros H; contradiction] |].
  simpl Nat.iter. split.
  - change (App.expression (App.delete_last (Nat.iter n App.delete_last w)))
      with (PyStr.drop_last (App.expression (Nat.iter n App.delete_last w))).
    rewrite IHx. reflexivity.
  - intros _.
    change (App.entry (App.delete_last (Nat.iter n App.delete_last w)))
      with (PyStr.drop_last (App.expression (Nat.iter n App.delete_last w))).
    rewrite IHx. reflexivity.
Qed.

(** [delete_last] takes back what was typed, one character for each call: as
    many calls as the text appended has characters restore the pending
    expression and show it.  Each call shortens the expression by one
    character; on an empty expression it leaves it empty and empties the
    display. *)
Theorem delete_last_takes_back_typing (w : App.state) :
  (forall s : string,
     App.expression (Nat.iter (String.length s) App.delete_last (App.add_to_expression w s))
     = App.expression w
     /\ App.entry (Nat.iter (String.length s) App.delete_last (App.add_to_expression w s))
        = App.expression w)
  /\ String.length (App.expression (App.delete_last w))
     = Nat.pred (String.length (App.expression w))
  /\ App.entry (App.delete_last w) = App.expression (App.delete_last w)
  /\ (App.expression w = "" ->
      App.expression (App.delete_last w) = "" /\ App.entry (App.delete_last w) = "").
Proof.
  split; [| split; [| split]].
  - intros s.
    destruct (iter_delete_last (String.length s) (App.add_to_expression w s)) as (Hx & He).
    change (App.expression (App.add_to_expression w s))
      with (String.append (App.expression w) s) in *.
    rewrite drop_last_append in *. split; [exact Hx |].
    destruct s as [| c s].
    + simpl. unfold App.entry, App.expression. simpl.
      induction (ScientificCalculator.expression (App.shell w)) as [| a t IH];
        [reflexivity | simpl; f_equal; exact IH].
    + apply He. discriminate.
  - apply drop_last_length.
  - reflexivity.
  - intros H. unfold App.delete_last, App.entry, App.expression in *. simpl. rewrite H.
    split; reflexivity.
Qed.

Lemma delete_last_takes_back_typing_witness :
  App.expression (App.delete_last App.init) = ""
  /\ App.entry (App.delete_last App.init) = "".
Proof.
  apply (proj2 (proj2 (proj2 (delete_last_takes_back_typing App.init)))). reflexivity.
Defined.

(** *** Typing a formula *)

Module Typing.











End Typing.



(** ** The decimal display of an integer *)

Module IntegerDisplay.

Lemma value_acc (u : Decimal.uint) : forall acc : positive,
  fold_left Numeral.step (Numeral.chars u) (Zpos acc) = Zpos (Pos.of_uint_acc u acc).
Proof.
  induction u as [| u IH | u IH | u IH | u IH | u IH | u IH | u IH | u IH | u IH | u IH];
    intros acc; [reflexivity | ..];
    unfold Numeral.chars;
    cbn [NilEmpty.string_of_uint list_ascii_of_string fold_left Pos.of_uint_acc];
    match goal with
    | |- fold_left Numeral.step ?l ?a = Zpos (Pos.of_uint_acc _ ?b) =>
        replace a with (Zpos b)
          by (unfold Numeral.step, tokenizer.digit_value, tokenizer.code;
              simpl (Z.of_N (N_of_ascii _)); lia)
    end; apply IH.
Qed.

Lemma value (u : Decimal.uint) :
  tokenizer.digits_value (Numeral.chars u) = Z.of_N (Pos.of_uint u).
Proof.
  unfold tokenizer.digits_value. fold Numeral.step.
  induction u as [| u IH | u IH | u IH | u IH | u IH | u IH | u IH | u IH | u IH | u IH];
    [reflexivity | ..];
    unfold Numeral.chars;
    cbn [NilEmpty.string_of_uint list_ascii_of_string fold_left Pos.of_uint];
    [exact IH | ..];
    match goal with
    | |- fold_left Numeral.step ?l ?a = Z.of_N (N.pos (Pos.of_uint_acc _ ?b)) =>
        change a with (Zpos b)
    end; apply value_acc.
Qed.

Lemma all_digits (u : Decimal.uint) : forallb tokenizer.is_digit (Numeral.chars u) = true.
Proof.
  induction u; [reflexivity | ..]; unfold Numeral.chars;
    cbn [NilEmpty.string_of_uint list_ascii_of_string forallb]; exact IHu.
Qed.

(** The numeral of a positive number: its digits, the first of them not
    zero, and the number they denote. *)
Lemma numeral (p : positive) :
  exists d ds,
    Numeral.chars (Pos.to_uint p) = d :: ds
    /\ forallb tokenizer.is_digit (d :: ds) = true
    /\ Formula.is_zero_digit d = false
    /\ tokenizer.digits_value (d :: ds) = Zpos p.
Proof.
  pose proof (value (Pos.to_uint p)) as Hv.
  rewrite DecimalPos.Unsigned.of_to in Hv.
  pose proof (all_digits (Pos.to_uint p)) as Hd.
  pose proof (DecimalPos.Unsigned.to_of (Pos.to_uint p)) as Hn.
  rewrite DecimalPos.Unsigned.of_to in Hn. simpl in Hn.
  pose proof (DecimalPos.Unsigned.to_uint_nonzero p) as Hnz.
  destruct (Pos.to_uint p) as [| u | u | u | u | u | u | u | u | u | u] eqn:Hu.
  1: discriminate Hv.
  2-10: eexists; eexists; split; [reflexivity |]; split; [exact Hd |]; split; [reflexivity |];
        exact Hv.
  exfalso. unfold Decimal.unorm in Hn. simpl in Hn.
  destruct (Decimal.nzhead u) eqn:Hh.
  - inversion Hn; subst u. apply Hnz; reflexivity.
  - exfalso. exact (DecimalFacts.nzhead_nonzero u _ Hh).
  - inversion Hn.
  - inversion Hn.
  - inversion Hn.
  - inversion Hn.
  - inversion Hn.
  - inversion Hn.
  - inversion Hn.
  - inversion Hn.
  - inversion Hn.
Qed.

End IntegerDisplay.

(** ** [float] of a decimal numeral *)

Module FloatOfString.

Lemma digit_facts (c : ascii) :
  tokenizer.is_digit c = true ->
  (N_of_ascii c <? 128)%N = true
  /\ PyFloat.is_underscore c = false
  /\ PyFloat.is_space c = false
  /\ (forall cs, PyFloat.sign (c :: cs) = (false, c :: cs)).
Proof.
  destruct c as [[] [] [] [] [] [] [] []]; intros H; try discriminate H;
    repeat split; reflexivity.
Qed.

Lemma digits_all (ds : list ascii) :
  forallb tokenizer.is_digit ds = true -> PyFloat.digits ds = (ds, []).
Proof.
  induction ds as [| d ds IH]; [reflexivity |]. simpl. intros H.
  apply andb_prop in H. destruct H as [Hd Hds]. rewrite Hd, (IH Hds). reflexivity.
Qed.

Lemma skip_spaces_none (cs : list ascii) :
  match cs with c :: _ => PyFloat.is_space c = false | [] => True end ->
  PyFloat.skip_spaces cs = cs.
Proof. destruct cs as [| c cs]; [reflexivity |]. simpl. intros ->. reflexivity. Qed.

Lemma last_digit (ds : list ascii) (d : ascii) :
  forallb tokenizer.is_digit (d :: ds) = true ->
  exists c l, rev (d :: ds) = c :: l /\ tokenizer.is_digit c = true.
Proof.
  intros H. assert (Hr : forallb tokenizer.is_digit (rev (d :: ds)) = true).
  { rewrite forallb_forall in *. intros x Hx. apply H. apply in_rev. exact Hx. }
  destruct (rev (d :: ds)) as [| c l] eqn:Hrev.
  - apply (f_equal (@List.length ascii)) in Hrev. rewrite length_rev in Hrev. discriminate Hrev.
  - simpl in Hr. apply andb_prop in Hr. exists c, l. split; [reflexivity | apply Hr].
Qed.

(** A numeral with or without a minus sign has nothing to strip. *)
Lemma strip_numeral (prefix : list ascii) (d : ascii) (ds : list ascii) :
  match prefix with c :: _ => PyFloat.is_space c = false | [] => True end ->
  forallb tokenizer.is_digit (d :: ds) = true ->
  PyFloat.strip (prefix ++ d :: ds) = prefix ++ d :: ds.
Proof.
  intros Hp Hd. unfold PyFloat.strip.
  assert (Hfirst : PyFloat.skip_spaces (prefix ++ d :: ds) = prefix ++ d :: ds).
  { apply skip_spaces_none. destruct prefix as [| c prefix]; [| exact Hp].
    simpl in Hd. apply andb_prop in Hd. apply (digit_facts d), Hd. }
  rewrite Hfirst.
  destruct (last_digit ds d Hd) as (c & l & Hrev & Hc).
  rewrite rev_app_distr, Hrev. simpl app at 1.
  replace (PyFloat.skip_spaces (c :: l ++ rev prefix)) with (c :: l ++ rev prefix)
    by (simpl; rewrite (proj1 (proj2 (proj2 (digit_facts c Hc)))); reflexivity).
  change (c :: l ++ rev prefix) with ((c :: l) ++ rev prefix).
  rewrite <- Hrev, <- rev_app_distr. apply rev_involutive.
Qed.

Lemma decimal_integer (negative : bool) (ds : list ascii) (p : positive) :
  tokenizer.digits_value ds = Zpos p ->
  PyFloat.decimal negative ds 0
  = if negative then F64.neg (F64.of_Z (Zpos p)) else F64.of_Z (Zpos p).
Proof.
  intros Hv. unfold PyFloat.decimal. rewrite Hv.
  change (Zpos p =? 0) with false. change (309 <=? 0) with false. cbv beta iota.
  replace (Z.of_nat (List.length ds) + 0 <=? -324) with false by (symmetry; apply Z.leb_gt; lia).
  change (0 <=? 0) with true. cbv beta iota.
  replace (Zpos p * 10 ^ 0) with (Zpos p) by lia. reflexivity.
Qed.

Lemma neg_of_Z (p : positive) : F64.neg (F64.of_Z (Zpos p)) = F64.of_Z (Zneg p).
Proof.
  unfold F64.of_Z, F64.of_Z_scaled, F64.neg, binary_normalize, binary_round.
  destruct (shl_align p 0 _) as [m e].
  unfold binary_round_aux.
  destruct (shr_fexp _ _ _ _ _) as [mrs e'].
  destruct (shr_fexp _ _ _ _ _) as [mrs' e''].
  destruct (shr_m mrs'); [reflexivity | | reflexivity].
  destruct (e'' <=? _); reflexivity.
Qed.

Lemma is_ascii_digits (ds : list ascii) :
  forallb tokenizer.is_digit ds = true ->
  forallb (fun c => (N_of_ascii c <? 128)%N) ds = true
  /\ existsb PyFloat.is_underscore ds = false.
Proof.
  induction ds as [| d ds IH]; [split; reflexivity |]. simpl. intros H.
  apply andb_prop in H. destruct H as [Hd Hds]. destruct (IH Hds) as (Ha & Hu).
  destruct (digit_facts d Hd) as (H1 & H2 & _). rewrite H1, H2, Ha, Hu. split; reflexivity.
Qed.

(** [float] of the decimal numeral of a number other than zero. *)
Lemma from_string_numeral (negative : bool) (d : ascii) (ds : list ascii) (p : positive) :
  forallb tokenizer.is_digit (d :: ds) = true ->
  tokenizer.digits_value (d :: ds) = Zpos p ->
  PyFloat.from_string
    (string_of_list_ascii ((if negative then ["-"%char] else []) ++ d :: ds))
  = Some (OK (F64.of_Z (if negative then Zneg p else Zpos p))).
Proof.
  intros Hd Hv. unfold PyFloat.from_string, PyStr.is_ascii.
  rewrite list_ascii_of_string_of_list_ascii.
  destruct (is_ascii_digits (d :: ds) Hd) as (Ha & Hu).
  assert (Hascii : forallb (fun c => (N_of_ascii c <? 128)%N)
                     ((if negative then ["-"%char] else []) ++ d :: ds) = true)
    by (destruct negative; [change (true && forallb (fun c => (N_of_ascii c <? 128)%N) (d :: ds) = true) |]; exact Ha).
  assert (Hund : existsb PyFloat.is_underscore
                   ((if negative then ["-"%char] else []) ++ d :: ds) = false)
    by (destruct negative; [change (false || existsb PyFloat.is_underscore (d :: ds) = false) |]; exact Hu).
  rewrite Hascii, Hund. cbv beta iota. simpl negb. cbv beta iota.
  unfold PyFloat.inner.
  rewrite strip_numeral; [| destruct negative; [reflexivity | exact I] | exact Hd].
  assert (Hsign : PyFloat.sign ((if negative then ["-"%char] else []) ++ d :: ds)
                  = (negative, d :: ds)).
  { destruct negative; [reflexivity |].
    simpl in Hd. apply andb_prop in Hd. apply (digit_facts d), Hd. }
  unfold PyFloat.strtod. rewrite Hsign, (digits_all (d :: ds) Hd).
  cbv beta iota. rewrite app_nil_r. cbv beta iota.
  change (PyFloat.exponent []) with (0, @nil ascii). cbv beta iota.
  change (0 - Z.of_nat (@List.length ascii [])) with 0.
  rewrite (decimal_integer negative (d :: ds) p Hv).
  destruct negative; [rewrite neg_of_Z |]; reflexivity.
Qed.

(** [float(str(n))] for an [int]: the nearest double, infinity where [n] is
    too large; there is no exception. *)
Lemma from_string_of_int (n : Z) :
  PyFloat.from_string (NilZero.string_of_int (Z.to_int n)) = Some (OK (F64.of_Z n)).
Proof.
  destruct n as [| p | p]; [reflexivity | |].
  - destruct (IntegerDisplay.numeral p) as (d & ds & Hc & Hd & _ & Hv).
    pose proof (from_string_numeral false d ds p Hd Hv) as H.
    simpl app in H. rewrite <- Hc in H. unfold Numeral.chars in H.
    rewrite string_of_list_ascii_of_string in H.
    simpl. unfold NilZero.string_of_uint.
    destruct (Pos.to_uint p) eqn:Hu; try exact H.
    exfalso. exact (DecimalPos.Unsigned.to_uint_nonnil p Hu).
  - destruct (IntegerDisplay.numeral p) as (d & ds & Hc & Hd & _ & Hv).
    pose proof (from_string_numeral true d ds p Hd Hv) as H.
    simpl app in H. rewrite <- Hc in H. unfold Numeral.chars in H.
    change (string_of_list_ascii
              ("-"%char :: list_ascii_of_string (NilEmpty.string_of_uint (Pos.to_uint p))))
      with (String "-" (string_of_list_ascii
                          (list_ascii_of_string (NilEmpty.string_of_uint (Pos.to_uint p))))) in H.
    rewrite string_of_list_ascii_of_string in H.
    simpl. unfold NilZero.string_of_uint.
    destruct (Pos.to_uint p) eqn:Hu; try exact H.
    exfalso. exact (DecimalPos.Unsigned.to_uint_nonnil p Hu).
Qed.

End FloatOfString.

(** *** The memory register *)

(** [M+] on a display that shows an integer (the [str] of an [int], as after
    an evaluation with an integer result) stores the double nearest to it:
    the memory becomes a float, infinity where the integer is too large for
    a double, and no exception is raised.  On a display that reads [Error],
    or on an empty one, [float] raises, the exception is swallowed and the
    memory keeps its value.  Neither the pending expression nor the display
    changes. *)
Theorem memory_store_reads_the_display (P : Platform) (w : App.state) :
  (forall n : Z,
     App.entry w = PyNum.str P (VInt n) ->
     App.memory_store w
     = Some {| App.shell := App.shell w; App.memory := VFloat (F64.of_Z n);
               App.toggle_btn := App.toggle_btn w |})
  /\ (App.entry w = "Error" \/ App.entry w = "" -> App.memory_store w = Some w)
  /\ (forall w', App.memory_store w = Some w' ->
        App.shell w' = App.shell w
        /\ (App.memory w' = App.memory w \/ exists x, App.memory w' = VFloat x)).
Proof.
  split; [| split].
  - intros n Hn. unfold App.memory_store. rewrite Hn.
    change (PyNum.str P (VInt n)) with (NilZero.string_of_int (Z.to_int n)).
    rewrite FloatOfString.from_string_of_int. reflexivity.
  - intros [H | H]; unfold App.memory_store; rewrite H; reflexivity.
  - intros w' H. destruct (AppFacts.memory_store_cases w w' H) as (Hs & _ & Hm). auto.
Qed.

Lemma memory_store_reads_the_display_witness :
  exists w,
    App.run Sample.platform App.init (App.clicks "2+3*4" ++ [App.Button "="]) = Some w
    /\ App.entry w = "14"
    /\ App.memory_store w
       = Some {| App.shell := App.shell w; App.memory := VFloat (F64.of_Z 14);
                 App.toggle_btn := App.toggle_btn w |}.
Proof.
  eexists. split; [vm_compute; reflexivity |]. split; [reflexivity |].
  apply (proj1 (memory_store_reads_the_display Sample.platform _) 14). reflexivity.
Defined.

(** *** The grid of buttons *)

Lemma append_empty (s : string) : String.append s "" = s.
Proof. induction s as [| a s IH]; [reflexivity | simpl; rewrite IH; reflexivity]. Qed.

(** No button of the grid takes anything back: whatever button but [=] is
    clicked, the pending expression afterwards is the one before with
    something, possibly nothing, appended.  The branches of
    [on_button_click] for [C] and [DEL] are never reached from the grid,
    which has no such button: clearing and deleting are on the keyboard
    only. *)
Theorem buttons_only_append (P : Platform) (w : App.state) :
  (forall text w',
     In text (List.concat App.buttons) -> text <> "=" ->
     App.on_button_click P w text = Some w' ->
     exists suffix, App.expression w' = String.append (App.expression w) suffix)
  /\ (forall text,
        In text (List.concat App.buttons) -> text <> "=" -> text <> "M+" ->
        exists w', App.on_button_click P w text = Some w')
  /\ ~ In "C" (List.concat App.buttons)
  /\ ~ In "DEL" (List.concat App.buttons).
Proof.
  split; [| split; [| split]].
  - intros text w' Hin Hne Hclick. simpl in Hin.
    repeat (destruct Hin as [<- | Hin];
            [first
               [ exfalso; apply Hne; reflexivity
               | change (App.memory_store w = Some w') in Hclick;
                 destruct (AppFacts.memory_store_cases w w' Hclick) as (Hs & _);
                 exists ""; unfold App.expression; rewrite Hs; symmetry; apply append_empty
               | change (Some (App.memory_clear w) = Some w') in Hclick;
                 inversion Hclick; subst w'; exists ""; symmetry; apply append_empty
               | inversion Hclick; subst w'; eexists; reflexivity ] |]).
    contradiction.
  - intros text Hin Hne Hm. simpl in Hin.
    repeat (destruct Hin as [<- | Hin];
            [first [exfalso; apply Hne; reflexivity | exfalso; apply Hm; reflexivity
                   | eexists; reflexivity] |]).
    contradiction.
  - simpl. intros H. repeat (destruct H as [H | H]; [discriminate H |]). exact H.
  - simpl. intros H. repeat (destruct H as [H | H]; [discriminate H |]). exact H.
Qed.

Lemma buttons_only_append_witness :
  (exists suffix,
     App.expression (App.add_to_expression (App.add_to_expression App.init "2+") "sin(")
     = String.append (App.expression (App.add_to_expression App.init "2+")) suffix)
  /\ exists w',
       App.on_button_click Sample.platform (App.add_to_expression App.init "2+") "MR" = Some w'.
Proof.
  pose proof (buttons_only_append Sample.platform (App.add_to_expression App.init "2+"))
    as (Happend & Htotal & _).
  split.
  - apply (Happend "sin").
    + simpl. tauto.
    + discriminate.
    + reflexivity.
  - apply Htotal.
    + simpl. tauto.
    + discriminate.
    + discriminate.
Defined.

(** In every state a run from the start reaches, the memory register holds
    the [int] zero it starts with and [MC] resets it to, or a [float] that
    [M+] has read off the display; so [MR] appends the text of a number,
    never that of another object. *)
Theorem memory_holds_zero_or_a_float (P : Platform) (evs : list App.event) (w' : App.state) :
  App.run P App.init evs = Some w' ->
  App.memory w' = VInt 0 \/ exists x, App.memory w' = VFloat x.
Proof.
  apply (AppFacts.run_invariant P
           (fun w => App.memory w = VInt 0 \/ exists x, App.memory w = VFloat x));
    [| left; reflexivity].
  clear. intros w ev w' Hw Hev.
  destruct ev as [char | | | | text |]; simpl in Hev.
  - inversion Hev; subst w'. unfold App.key_input.
    destruct (PyStr.contains char _); exact Hw.
  - destruct (AppFacts.evaluate_cases P w w' Hev) as (Hm & _). rewrite Hm. exact Hw.
  - inversion Hev; subst w'. exact Hw.
  - inversion Hev; subst w'. exact Hw.
  - destruct (AppFacts.on_button_click_cases P w text)
      as [E | [E | [E | [E | [E | (s & E)]]]]]; rewrite E in Hev.
    + inversion Hev; subst w'. exact Hw.
    + inversion Hev; subst w'. exact Hw.
    + destruct (AppFacts.evaluate_cases P w w' Hev) as (Hm & _). rewrite Hm. exact Hw.
    + destruct (AppFacts.memory_store_cases w w' Hev) as (_ & _ & [Hm | Hx]).
      * rewrite Hm. exact Hw.
      * right. exact Hx.
    + inversion Hev; subst w'. left; reflexivity.
    + inversion Hev; subst w'. exact Hw.
  - inversion Hev; subst w'. exact Hw.
Qed.

Lemma memory_holds_zero_or_a_float_witness :
  exists w',
    App.run Sample.platform App.init
      [App.Button "7"; App.Button "M+"; App.Escape; App.Button "sin"; App.Button "=";
       App.Button "M+"]
    = Some w'
    /\ (App.memory w' = VInt 0 \/ exists x, App.memory w' = VFloat x).
Proof.
  eexists. split; [vm_compute; reflexivity |].
  apply (memory_holds_zero_or_a_float Sample.platform
           [App.Button "7"; App.Button "M+"; App.Escape; App.Button "sin"; App.Button "=";
            App.Button "M+"]).
  vm_compute; reflexivity.
Defined.

(** *** The caret *)

Lemma replace_caret_append (a b : string) :
  ScientificCalculator.replace_caret (String.append a b)
  = String.append (ScientificCalculator.replace_caret a) (ScientificCalculator.replace_caret b).
Proof.
  induction a as [| c a IH]; [reflexivity |]. simpl.
  destruct (N_of_ascii c =? 94)%N; simpl; rewrite IH; reflexivity.
Qed.

Lemma replace_caret_without (s : string) :
  existsb (fun c => (N_of_ascii c =? 94)%N) (list_ascii_of_string s) = false ->
  ScientificCalculator.replace_caret s = s.
Proof.
  induction s as [| c s IH]; [reflexivity |]. simpl. intros H.
  apply orb_false_iff in H. destruct H as [Hc Hs]. rewrite Hc, (IH Hs). reflexivity.
Qed.

Lemma replace_caret_clean (s : string) :
  existsb (fun c => (N_of_ascii c =? 94)%N)
    (list_ascii_of_string (ScientificCalculator.replace_caret s)) = false.
Proof.
  induction s as [| c s IH]; [reflexivity |]. simpl.
  destruct (N_of_ascii c =? 94)%N eqn:Hc; simpl; [exact IH |]. rewrite Hc. exact IH.
Qed.

(** The caret is the power operator and nothing else: [evaluate] gives an
    expression written with [^] the result it gives the same expression
    written with [**]; what reaches the parser holds no caret (so Python's
    exclusive or is out of reach), and an expression without a caret
    reaches it unchanged. *)
Theorem caret_is_the_power_operator (P : Platform) (deg : bool) :
  (forall a b : string,
     ScientificCalculator.computed P
       (ScientificCalculator.pending deg (String.append a (String.append "^" b)))
     = ScientificCalculator.computed P
         (ScientificCalculator.pending deg (String.append a (String.append "**" b))))
  /\ (forall s : string,
        existsb (fun c => (N_of_ascii c =? 94)%N)
          (list_ascii_of_string (ScientificCalculator.replace_caret s)) = false)
  /\ (forall s : string,
        existsb (fun c => (N_of_ascii c =? 94)%N) (list_ascii_of_string s) = false ->
        ScientificCalculator.computed P (ScientificCalculator.pending deg s)
        = SafeEval.eval_expr P deg s).
Proof.
  split; [| split].
  - intros a b. unfold ScientificCalculator.computed, ScientificCalculator.pending.
    cbn [ScientificCalculator.copy_flag ScientificCalculator.safe_eval_use_degrees
         ScientificCalculator.expression ScientificCalculator.use_degrees].
    rewrite !replace_caret_append. reflexivity.
  - apply replace_caret_clean.
  - intros s Hs. unfold ScientificCalculator.computed, ScientificCalculator.pending.
    cbn [ScientificCalculator.copy_flag ScientificCalculator.safe_eval_use_degrees
         ScientificCalculator.expression ScientificCalculator.use_degrees].
    rewrite (replace_caret_without s Hs). reflexivity.
Qed.

Lemma caret_is_the_power_operator_witness :
  ScientificCalculator.computed Sample.platform (ScientificCalculator.pending true "2**3+1")
  = SafeEval.eval_expr Sample.platform true "2**3+1".
Proof.
  apply (proj2 (proj2 (caret_is_the_power_operator Sample.platform true)) "2**3+1").
  reflexivity.
Defined.

(** *** A result as the next expression *)




(** *** Minus signs in a row *)

(** Two minus signs cancel: where a tree evaluates to a number, the tree
    negated twice evaluates to the same number, exactly, whether an [int], a
    [float] or a [complex]; and a well-formed formula written after two
    minus signs is evaluated to the value of the formula. *)
Theorem two_minus_signs_cancel (P : Platform) (deg : bool) :
  (forall t v,
     SafeEval._eval P deg t = OK v -> is_number v = true ->
     SafeEval._eval P deg (ast.UnaryOp ast.USub (ast.UnaryOp ast.USub t)) = OK v)
  /\ (forall f v,
        Formula.wf f = true ->
        SafeEval._eval P deg (Formula.tree f) = OK v -> is_number v = true ->
        ScientificCalculator.computed P
          (ScientificCalculator.pending deg
             (String.append "--" (Formula.render 3 f)))
        = Some (OK v)).
Proof.
  assert (Htree : forall t v,
            SafeEval._eval P deg t = OK v -> is_number v = true ->
            SafeEval._eval P deg (ast.UnaryOp ast.USub (ast.UnaryOp ast.USub t)) = OK v).
  { intros t v Hv Hn.
    change (SafeEval._eval P deg (ast.UnaryOp ast.USub (ast.UnaryOp ast.USub t)))
      with (a <- (b <- SafeEval._eval P deg t ;; PyNum.neg b) ;; PyNum.neg a).
    rewrite Hv. destruct v as [n | x | re im | g]; try discriminate Hn; simpl.
    - rewrite Z.opp_involutive. reflexivity.
    - destruct x as [[] | [] | | [] m e]; reflexivity.
    - destruct re as [[] | [] | | [] m e]; destruct im as [[] | [] | | [] m' e']; reflexivity. }
  split; [exact Htree |].
  intros f v Hwf Hv Hn.
  unfold ScientificCalculator.computed, SafeEval.eval_expr, ScientificCalculator.pending.
  cbn [ScientificCalculator.copy_flag ScientificCalculator.safe_eval_use_degrees
       ScientificCalculator.expression ScientificCalculator.use_degrees].
  change (String.append "--" (Formula.render 3 f))
    with (Formula.write (Formula.Neg (Formula.Neg f))).
  rewrite FormulaFacts.parse_written by exact Hwf.
  f_equal. apply (Htree (Formula.tree f) v Hv Hn).
Qed.

Lemma two_minus_signs_cancel_witness :
  ScientificCalculator.computed Sample.platform (ScientificCalculator.pending true "--2^2")
  = Some (OK (VInt 4)).
Proof.
  apply (proj2 (two_minus_signs_cancel Sample.platform true)
           (Formula.Bin Formula.Power (Formula.Lit (Formula.Integer ["2"%char]))
              (Formula.Lit (Formula.Integer ["2"%char])))); reflexivity.
Defined.
